(** * Soda machine API: purchase workflow and intent parser

    A shallow embedding of [app/main.py], [app/services/ai_parser.py],
    [app/models.py] and [app/database.py], and the properties of the purchase
    workflow stated over it.

    Modelling conventions.
    - A Python [str] is a sequence of Unicode code points: [pystr := list N].
      [str.strip], the [in] operator, [==] and the regular expression search
      are defined on code points exactly as Python defines them.
    - The store is SQLite (see [DATABASE_URL]).  [Product.name.ilike(name)] is
      rendered by SQLAlchemy for SQLite as [lower(product.name) LIKE lower(?)],
      with no ESCAPE clause; SQLite's [lower()] and [LIKE] fold the 26 ASCII
      letters only.  Both are defined below on code points.
    - A Python [int] is a [Z]; a Python [float] is a binary64 primitive float.
    - What the code obtains from outside its own text is a parameter: the
      language service, [json.loads], pydantic's field validation,
      [str.lower] (its Unicode tables), [datetime.now] and the order in which
      the store enumerates the names.
    - An endpoint is a function from the committed store to an outcome and the
      next committed store: an exception leaves the session uncommitted, so
      the store is the one the request started from. *)

From Stdlib Require Import ZArith NArith List Bool Lia String Ascii Floats Permutation
  Sorted.
Import ListNotations.

Set Warnings "-inexact-float".

(** ** Python strings *)

Module PyStr.

Definition char := N.
Definition pystr := list char.

(** A literal of ASCII characters. *)
Definition str (s : string) : pystr := map N_of_ascii (list_ascii_of_string s).

(** [a == b] on strings. *)
Fixpoint eqb (a b : pystr) : bool :=
  match a, b with
  | [], [] => true
  | c :: a', d :: b' => N.eqb c d && eqb a' b'
  | _, _ => false
  end.

(** The characters [str.strip()] removes: Python's Unicode white space. *)
Definition isspace (c : char) : bool :=
  ((9 <=? c) && (c <=? 13) || (28 <=? c) && (c <=? 32) || (c =? 133) || (c =? 160)
   || (c =? 5760) || (8192 <=? c) && (c <=? 8202) || (c =? 8232) || (c =? 8233)
   || (c =? 8239) || (c =? 8287) || (c =? 12288))%N.

Fixpoint lstrip (s : pystr) : pystr :=
  match s with
  | [] => []
  | c :: s' => if isspace c then lstrip s' else s
  end.

Definition rstrip (s : pystr) : pystr := rev (lstrip (rev s)).

(** [s.strip()] *)
Definition strip (s : pystr) : pystr := rstrip (lstrip s).

Fixpoint startswith (hay needle : pystr) : bool :=
  match needle, hay with
  | [], _ => true
  | _ :: _, [] => false
  | c :: needle', d :: hay' => N.eqb c d && startswith hay' needle'
  end.

(** [needle in hay] *)
Fixpoint contains (hay needle : pystr) : bool :=
  startswith hay needle
  || match hay with
     | [] => false
     | _ :: hay' => contains hay' needle
     end.

(** A lookup in a [dict] with string keys, held as an association list. *)
Fixpoint get {A : Type} (key : pystr) (d : list (pystr * A)) : option A :=
  match d with
  | [] => None
  | (k, v) :: d' => if eqb k key then Some v else get key d'
  end.

End PyStr.
Import PyStr.

(** ** SQLite text functions *)

Module Sqlite.

Definition percent : char := 37%N.
Definition underscore : char := 95%N.

(** [lower(X)]: the ASCII capitals become small letters, every other
    character is kept. *)
Definition lower_char (c : char) : char :=
  if ((65 <=? c) && (c <=? 90))%N then (c + 32)%N else c.

Definition lower (s : pystr) : pystr := map lower_char s.

(** How [LIKE] compares an ordinary pattern character with a character of
    the text: equal, or both ASCII and equal after folding. *)
Definition char_matches (p c : char) : bool :=
  (N.eqb p c
   || (p <? 128) && (c <? 128) && (lower_char p =? lower_char c))%N.

(** [text LIKE pat]: [%] stands for any run of characters, [_] for any one
    character, there is no escape character.  (SQLite refuses a pattern of
    more than 50000 bytes and ends a text at a NUL; such requests are outside
    the model.) *)
Fixpoint like (pat text : pystr) {struct pat} : bool :=
  match pat with
  | [] => match text with [] => true | _ :: _ => false end
  | c :: pat' =>
      if N.eqb c percent then
        (fix skip (t : pystr) : bool :=
           like pat' t
           || match t with
              | [] => false
              | _ :: t' => skip t'
              end) text
      else
        match text with
        | [] => false
        | d :: text' =>
            (if N.eqb c underscore then true else char_matches c d)
            && like pat' text'
        end
  end.

(** [column ILIKE pat] on SQLite. *)
Definition ilike (column pat : pystr) : bool := like (lower pat) (lower column).

End Sqlite.

(** ** The regular expression of the parser *)

Module Re.

Definition lbrace : char := 123%N.
Definition rbrace : char := 125%N.

(** [.*\}] with [re.DOTALL] at the head of [s]: the star takes a character
    whenever the rest can still be matched, and gives it back otherwise. *)
Fixpoint star_rbrace (s : pystr) : option pystr :=
  match s with
  | [] => None
  | c :: s' =>
      match star_rbrace s' with
      | Some m => Some (c :: m)
      | None => if N.eqb c rbrace then Some [c] else None
      end
  end.

(** [\{.*\}] anchored at the head of [s]. *)
Definition match_here (s : pystr) : option pystr :=
  match s with
  | [] => None
  | c :: s' =>
      if N.eqb c lbrace then
        match star_rbrace s' with
        | Some m => Some (c :: m)
        | None => None
        end
      else None
  end.

(** [re.search(r"\{.*\}", s, re.DOTALL)]: the match at the leftmost position
    that has one; the result is [match.group()]. *)
Fixpoint search (s : pystr) : option pystr :=
  match match_here s with
  | Some m => Some m
  | None =>
      match s with
      | [] => None
      | _ :: s' => search s'
      end
  end.

End Re.

(** ** Python results and numbers *)

(** The exceptions the code tells apart: pydantic's [ValidationError], caught
    by the first handler of the parser, and every other subclass of
    [Exception], with [type(e).__name__] and [str(e)]. *)
Inductive exception : Type :=
| ValidationError (msg : pystr)
| OtherException (name msg : pystr).

Inductive py_result (A : Type) : Type :=
| Ok (a : A)
| Raise (e : exception).
Arguments Ok {A} a.
Arguments Raise {A} e.

Definition bind {A B : Type} (r : py_result A) (k : A -> py_result B) : py_result B :=
  match r with
  | Ok a => k a
  | Raise e => Raise e
  end.

Notation "x <- r ;; k" := (bind r (fun x => k))
  (at level 61, r at next level, right associativity).

Open Scope Z_scope.

(** [float(n)] for an [int]: rounded to the nearest binary64, ties to even;
    [OverflowError] when the result is not finite. *)
Definition float_of_int (n : Z) : py_result float :=
  match binary_normalize prec emax n 0 false with
  | S754_infinity _ =>
      Raise (OtherException (str "OverflowError") (str "int too large to convert to float"))
  | sf => Ok (SF2Prim sf)
  end.

(** [x * n] for a [float] and an [int]. *)
Definition float_mul_int (x : float) (n : Z) : py_result float :=
  y <- float_of_int n ;; Ok (PrimFloat.mul x y).

(** ** app/models.py *)

Module Product.
Record t : Type := mk { id : Z; name : pystr; price : float; stock : Z }.

(** [product.stock = s] *)
Definition with_stock (p : t) (s : Z) : t := mk (id p) (name p) (price p) s.
End Product.

Module Transaction.
Record t : Type :=
  mk { id : Z; product_id : Z; quantity : Z; total_price : float; timestamp : Z }.
End Transaction.

(** The two tables, each in the order of its row ids. *)
Record Store : Type := { products : list Product.t; transactions : list Transaction.t }.

(** The id SQLite gives a row inserted without one: 1 in an empty table, one
    more than the largest id otherwise (below the largest 64-bit integer,
    which no table of this program reaches). *)
Definition next_rowid (ids : list Z) : Z :=
  match ids with
  | [] => 1
  | i :: rest => 1 + fold_right Z.max i rest
  end.

(** ** app/services/ai_parser.py *)

Record PurchaseIntent : Type := { product_name : pystr; quantity : Z }.
Record UnknownIntent : Type := { reason : pystr }.

(** [Union[PurchaseIntent, UnknownIntent]] *)
Inductive IntentData : Type :=
| IsPurchase (d : PurchaseIntent)
| IsUnknown (d : UnknownIntent).

Record UserIntent : Type := { type : pystr; data : option IntentData }.

(** The values [json.loads] builds. *)
#[local] Unset Elimination Schemes.
Inductive json : Type :=
| JNull
| JBool (b : bool)
| JInt (n : Z)
| JFloat (x : float)
| JStr (s : pystr)
| JList (l : list json)
| JDict (d : list (pystr * json)).
#[local] Set Elimination Schemes.

(** What the program takes from its libraries and its store. *)
Record Runtime : Type := {
  (** [str.lower] *)
  py_lower : pystr -> pystr;
  (** [json.loads] on a text that begins with an opening brace: the dict it
      decodes, or the exception it raises *)
  json_loads : pystr -> py_result (list (pystr * json));
  (** pydantic's validation of the keyword arguments against the fields of
      [UserIntent]; [None] when it rejects them *)
  validate_fields : list (pystr * json) -> option UserIntent;
  (** [str(e)] of the [ValidationError] raised on these keyword arguments *)
  error_text : list (pystr * json) -> pystr;
  (** the order in which [select(Product.name)] returns the names *)
  scan_names : list Product.t -> list pystr
}.

(** Code points of the accented letters in the program's texts. *)
Definition a_acute : char := 225%N.
Definition a_tilde : char := 227%N.
Definition c_cedilla : char := 231%N.

Definition validation_prefix : pystr :=
  str "Erro de valida" ++ [c_cedilla; a_tilde] ++ str "o: ".
Definition gemini_prefix : pystr := str "Erro com Gemini: ".

Section Parser.

Variable rt : Runtime.

(** [UserIntent] built from the keyword arguments [parsed_json]: [type] has
    no default, so keyword arguments without it are rejected. *)
Definition UserIntent_init (parsed_json : list (pystr * json)) : py_result UserIntent :=
  match get (str "type") parsed_json with
  | None => Raise (ValidationError (error_text rt parsed_json))
  | Some _ =>
      match validate_fields rt parsed_json with
      | Some intent => Ok intent
      | None => Raise (ValidationError (error_text rt parsed_json))
      end
  end.

(** Lines 92-93: [match.group()] decoded, or the empty dict. *)
Definition extract_json (text : pystr) : py_result (list (pystr * json)) :=
  match Re.search text with
  | Some group => json_loads rt group
  | None => Ok []
  end.

(** The body of the [try] (lines 64-97).  [service message] is what
    [model.generate_content(prompt).text] gives for the prompt that embeds
    [message]: the text of the answer, or the exception raised. *)
Definition try_body (service : pystr -> py_result pystr) (message : pystr)
  : py_result UserIntent :=
  text <- service message ;;
  parsed_json <- extract_json text ;;
  UserIntent_init parsed_json.

Definition unknown (why : pystr) : UserIntent :=
  {| type := str "unknown"; data := Some (IsUnknown {| reason := why |}) |}.

(** [parse_user_message]: the [try] with its two handlers. *)
Definition parse_user_message (service : pystr -> py_result pystr) (message : pystr)
  : py_result UserIntent :=
  match try_body service message with
  | Ok intent => Ok intent
  | Raise (ValidationError msg) => Ok (unknown (validation_prefix ++ msg))
  | Raise (OtherException name msg) =>
      Ok (unknown (gemini_prefix ++ name ++ str ": " ++ msg))
  end.

End Parser.

(** ** app/main.py *)

(** The [detail] of an [HTTPException], by the statement that raises it. *)
Inductive Detail : Type :=
| InvalidQuantity                        (* line 120 *)
| ProductNotFound (name : pystr)         (* line 134 *)
| InsufficientStock (available : Z)      (* line 139 *)
| IntentNotUnderstood (reason : pystr)   (* line 163 *)
| UnexpectedError.                       (* line 167 *)

(** The body returned by a purchase: the quantity, the name and the total
    that [message] prints, and [stock_restante].  The entries [product] and
    [transaction], dumps of the two session objects, are left out. *)
Record PurchaseResponse : Type := {
  message_quantity : Z;
  message_product : pystr;
  message_total : float;
  stock_restante : Z
}.

(** How a call of an endpoint ends. *)
Inductive Outcome (A : Type) : Type :=
| Returns (body : A)
| HTTPException (status_code : Z) (detail : Detail)
| Fails (e : exception).
Arguments Returns {A} body.
Arguments HTTPException {A} status_code detail.
Arguments Fails {A} e.

(** The rows [startup] adds to an empty product table. *)
Definition seed_products : list Product.t :=
  [ Product.mk 1 (str "Coca-Cola") 2.5%float 100;
    Product.mk 2 (str "Pepsi") 2.2%float 80;
    Product.mk 3 (str "Guaran" ++ [a_acute]) 2%float 120 ].

Definition startup (st : Store) : Store :=
  match products st with
  | [] => {| products := seed_products; transactions := transactions st |}
  | _ :: _ => st
  end.

Definition list_products (st : Store) : list Product.t := products st.
Definition list_transactions (st : Store) : list Transaction.t := transactions st.

Section Workflow.

Variable rt : Runtime.

(** Line 124: the first row whose name is [ILIKE] the requested one.  The
    query is taken to complete: a name that SQLite or its driver refuses (a
    pattern of more than 50000 bytes, a lone surrogate) ends the request in
    an exception of the driver, and such requests are outside the model. *)
Definition exact_match (st : Store) (name : pystr) : option Product.t :=
  find (fun p => Sqlite.ilike (Product.name p) name) (products st).

(** Line 131: the first row with exactly this name. *)
Definition product_named (st : Store) (p_name : pystr) : option Product.t :=
  find (fun p => PyStr.eqb (Product.name p) p_name) (products st).

(** Lines 129-132: the loop over the names, left at the first name that
    contains the requested one. *)
Fixpoint similarity (st : Store) (name : pystr) (names : list pystr)
  : option Product.t :=
  match names with
  | [] => None
  | p_name :: rest =>
      if contains (py_lower rt p_name) (py_lower rt name)
      then product_named st p_name
      else similarity st name rest
  end.

(** Lines 124-132. *)
Definition resolve (st : Store) (name : pystr) : option Product.t :=
  match exact_match st name with
  | Some product => Some product
  | None => similarity st name (scan_names rt (products st))
  end.

(** Lines 143-148: the session's flush and commit, an [UPDATE] of the stock
    of the rows with the product's id and an [INSERT] of the transaction. *)
Definition commit (st : Store) (product : Product.t) (transaction : Transaction.t)
  : Store :=
  {| products :=
       map (fun row =>
              if Product.id row =? Product.id product
              then Product.with_stock row (Product.stock product)
              else row)
           (products st);
     transactions := transactions st ++ [transaction] |}.

(** Lines 114-158, the branch of a purchase intent. *)
Definition purchase (now : Z) (intent : PurchaseIntent) (st : Store)
  : Outcome PurchaseResponse * Store :=
  let name := strip (product_name intent) in
  let quantity := quantity intent in
  if quantity <=? 0 then (HTTPException 400 InvalidQuantity, st)
  else
    match resolve st name with
    | None => (HTTPException 404 (ProductNotFound name), st)
    | Some found =>
        if Product.stock found <? quantity
        then (HTTPException 400 (InsufficientStock (Product.stock found)), st)
        else
          let product := Product.with_stock found (Product.stock found - quantity) in
          match float_mul_int (Product.price product) quantity with
          | Raise e => (Fails e, st)
          | Ok total =>
              let transaction :=
                Transaction.mk (next_rowid (map Transaction.id (transactions st)))
                               (Product.id product) quantity total now in
              (Returns {| message_quantity := quantity;
                          message_product := Product.name product;
                          message_total := total;
                          stock_restante := Product.stock product |},
               commit st product transaction)
          end
    end.

(** [interact]: [service] is the language service on this call and [now]
    the reading of the clock. *)
Definition interact (service : pystr -> py_result pystr) (now : Z)
           (message : pystr) (st : Store) : Outcome PurchaseResponse * Store :=
  match parse_user_message rt service message with
  | Raise e => (Fails e, st)
  | Ok intent =>
      match PyStr.eqb (type intent) (str "purchase"), data intent with
      | true, Some (IsPurchase d) => purchase now d st
      | _, _ =>
          match PyStr.eqb (type intent) (str "unknown"), data intent with
          | true, Some (IsUnknown d) =>
              (HTTPException 400 (IntentNotUnderstood (reason d)), st)
          | _, _ => (HTTPException 500 UnexpectedError, st)
          end
      end
  end.

(** A request to the API. *)
Inductive Request : Type :=
| GetRoot
| GetInterface
| GetProducts
| GetTransactions
| PostInteract (service : pystr -> py_result pystr) (now : Z) (message : pystr).

(** The store after a request. *)
Definition serve (st : Store) (r : Request) : Store :=
  match r with
  | PostInteract service now message => snd (interact service now message st)
  | GetRoot | GetInterface | GetProducts | GetTransactions => st
  end.

(** The store after a sequence of requests. *)
Definition run (requests : list Request) (st : Store) : Store :=
  fold_left serve requests st.

End Workflow.

(** ** A concrete runtime, for running the model on examples *)

Module Demo.

(** [str.lower] on the code points below 256 (ASCII and Latin-1 capitals);
    larger code points are kept. *)
Definition lower_char (c : char) : char :=
  if ((65 <=? c) && (c <=? 90)
      || (192 <=? c) && (c <=? 222) && negb (c =? 215))%N
  then (c + 32)%N else c.

Definition lower (s : pystr) : pystr := map lower_char s.

Definition quote : char := 34%N.
Definition quoted (s : string) : pystr := quote :: str s ++ [quote].

(** The answer [{"type": "purchase", "data": null}]. *)
Definition purchase_without_data : pystr :=
  str "{" ++ quoted "type" ++ str ": " ++ quoted "purchase" ++ str ", "
      ++ quoted "data" ++ str ": null}".

(** The answer [{"type": "refund", "data": null}], alone and in a sentence. *)
Definition refund : pystr :=
  str "{" ++ quoted "type" ++ str ": " ++ quoted "refund" ++ str ", "
      ++ quoted "data" ++ str ": null}".
Definition refund_in_a_sentence : pystr := str "Sure: " ++ refund ++ str " done".

(** The answer
    [{"type": "purchase", "data": {"product_name": "coca-cola", "quantity": 3}}]. *)
Definition three_colas : pystr :=
  str "{" ++ quoted "type" ++ str ": " ++ quoted "purchase" ++ str ", "
      ++ quoted "data" ++ str ": {" ++ quoted "product_name" ++ str ": "
      ++ quoted "coca-cola" ++ str ", " ++ quoted "quantity" ++ str ": 3}}".

(** A decoder that knows the three answers above and [{}]. *)
Definition loads (s : pystr) : py_result (list (pystr * json)) :=
  if PyStr.eqb s three_colas
  then Ok [(str "type", JStr (str "purchase"));
           (str "data", JDict [(str "product_name", JStr (str "coca-cola"));
                               (str "quantity", JInt 3)])]
  else if PyStr.eqb s purchase_without_data
  then Ok [(str "type", JStr (str "purchase")); (str "data", JNull)]
  else if PyStr.eqb s refund
  then Ok [(str "type", JStr (str "refund")); (str "data", JNull)]
  else if PyStr.eqb s (str "{}") then Ok []
  else Raise (OtherException (str "JSONDecodeError") (str "Expecting value")).

Definition validate_data (v : json) : option (option IntentData) :=
  match v with
  | JNull => Some None
  | JDict d =>
      match get (str "product_name") d, get (str "quantity") d, get (str "reason") d with
      | Some (JStr n), Some (JInt q), _ =>
          Some (Some (IsPurchase {| product_name := n; quantity := q |}))
      | _, _, Some (JStr r) => Some (Some (IsUnknown {| reason := r |}))
      | _, _, _ => None
      end
  | _ => None
  end.

(** Both fields required, [type] a string. *)
Definition validate (kwargs : list (pystr * json)) : option UserIntent :=
  match get (str "type") kwargs, get (str "data") kwargs with
  | Some (JStr t), Some v =>
      match validate_data v with
      | Some d => Some {| type := t; data := d |}
      | None => None
      end
  | _, _ => None
  end.

(** The names are listed in the order of the rows, one of the orders a store
    may use. *)
Definition runtime : Runtime :=
  {| py_lower := lower;
     json_loads := loads;
     validate_fields := validate;
     error_text := fun _ => str "validation error for UserIntent";
     scan_names := map Product.name |}.

Definition seeded : Store := startup {| products := []; transactions := [] |}.

Definition coca_cola : Product.t := Product.mk 1 (str "Coca-Cola") 2.5%float 100.
Definition pepsi : Product.t := Product.mk 2 (str "Pepsi") 2.2%float 80.
Definition guarana : Product.t := Product.mk 3 (str "Guaran" ++ [a_acute]) 2%float 120.

(** The name of the third seed in capitals, its last letter being the
    capital of [a_acute]. *)
Definition GUARANA : pystr := str "GUARAN" ++ [193%N].

(** Two names that differ in case only: the names are unique as stored. *)
Definition twins : Store :=
  {| products := [ Product.mk 1 (str "pepsi") 2%float 10;
                   Product.mk 2 (str "Pepsi") 2.2%float 80 ];
     transactions := [] |}.

(** A second product whose name contains the name of the third seed. *)
Definition diet_guarana : Product.t :=
  Product.mk 1 (str "Diet Guaran" ++ [a_acute]) 3%float 50.
Definition guarana2 : Product.t := Product.mk 2 (str "Guaran" ++ [a_acute]) 2%float 120.
Definition guaranas : Store :=
  {| products := [diet_guarana; guarana2]; transactions := [] |}.

Definition hundred_percent : Product.t := Product.mk 2 (str "100%") 4%float 10.

(** A table with a wildcard in a name. *)
Definition discounts : Store :=
  {| products := [ Product.mk 1 (str "1000 ml") 3%float 10;
                   Product.mk 2 (str "100%") 4%float 10 ];
     transactions := [] |}.

(** Three colas, at time 7. *)
Definition order : PurchaseIntent :=
  {| product_name := str "  coca-cola "; quantity := 3 |}.

Definition receipt : PurchaseResponse :=
  {| message_quantity := 3; message_product := str "Coca-Cola";
     message_total := 7.5%float; stock_restante := 97 |}.

Definition after_order : Store :=
  {| products := [Product.with_stock coca_cola 97; pepsi; guarana];
     transactions := [Transaction.mk 1 1 3 7.5%float 7] |}.

(** A morning of requests. *)
Definition morning : list Request :=
  [ GetRoot;
    PostInteract (fun _ => Ok three_colas) 7 (str "Quero comprar 3 Coca-Cola");
    GetProducts;
    PostInteract (fun _ => Ok purchase_without_data) 8 (str "Quero comprar");
    PostInteract (fun _ => Ok three_colas) 9 (str "Mais 3 Coca-Cola");
    GetTransactions ].

End Demo.

(** ** Vocabulary of the properties *)

(** The reason the handlers of [parse_user_message] give for an exception. *)
Definition reason_for (e : exception) : pystr :=
  match e with
  | ValidationError msg => validation_prefix ++ msg
  | OtherException name msg => gemini_prefix ++ name ++ str ": " ++ msg
  end.

(** No [LIKE] wildcard occurs in [s]. *)
Definition wildcard_free (s : pystr) : Prop :=
  ~ In Sqlite.percent s /\ ~ In Sqlite.underscore s.

(** [r] is [n] up to letter case, as [lower] folds it, and up to white space
    around it. *)
Definition variant_of (lower : pystr -> pystr) (r n : pystr) : Prop :=
  lower (strip r) = lower n.

(** The invariant of the product table: no stock is negative. *)
Definition stocks_nonnegative (st : Store) : Prop :=
  Forall (fun p => 0 <= Product.stock p) (products st).

(** [id] is the primary key of the product table. *)
Definition primary_key (st : Store) : Prop :=
  NoDup (map Product.id (products st)).

(** The test of line 130 on a stored name. *)
Definition name_contains (rt : Runtime) (name p_name : pystr) : bool :=
  contains (py_lower rt p_name) (py_lower rt name).

(** The names are unique, as the column is declared. *)
Definition unique_names (st : Store) : Prop :=
  NoDup (map Product.name (products st)).

(** The ids of the transactions grow along the table. *)
Definition transaction_ids_increase (st : Store) : Prop :=
  StronglySorted Z.lt (map Transaction.id (transactions st)).

(** Every transaction is of a stored product. *)
Definition foreign_keys (st : Store) : Prop :=
  Forall (fun t => In (Transaction.product_id t) (map Product.id (products st)))
         (transactions st).

(** Every transaction is of a positive quantity. *)
Definition quantities_positive (st : Store) : Prop :=
  Forall (fun t => 0 < Transaction.quantity t) (transactions st).

Definition sumZ (l : list Z) : Z := fold_right Z.add 0 l.

(** The stock held under the id [pid]. *)
Definition stock_of (pid : Z) (st : Store) : Z :=
  sumZ (map Product.stock (filter (fun row => Product.id row =? pid) (products st))).

(** The units of the product [pid] that the transactions record. *)
Definition sold (pid : Z) (st : Store) : Z :=
  sumZ (map Transaction.quantity
            (filter (fun t => Transaction.product_id t =? pid) (transactions st))).

(** A row and what a sequence of requests can make of it. *)
Definition sold_from (before after : Product.t) : Prop :=
  Product.id after = Product.id before
  /\ Product.name after = Product.name before
  /\ Product.price after = Product.price before
  /\ Product.stock after <= Product.stock before.

(** Every transaction records the price of its product times its quantity. *)
Definition totals_priced (st : Store) : Prop :=
  Forall (fun t => exists p, In p (products st)
                             /\ Product.id p = Transaction.product_id t
                             /\ float_mul_int (Product.price p) (Transaction.quantity t)
                                = Ok (Transaction.total_price t))
         (transactions st).

(** A string of white space only. *)
Definition blank (s : pystr) : bool := forallb isspace s.

(** * Properties *)

(** ** Strings *)

Lemma eqb_eq (a b : pystr) : PyStr.eqb a b = true <-> a = b.
Proof.
  revert b; induction a as [|c a IH]; intros [|d b]; simpl; split;
    try congruence; try discriminate.
  - intros H. apply andb_true_iff in H as [Hc Hab].
    apply N.eqb_eq in Hc. apply IH in Hab. congruence.
  - intros H. injection H as -> ->.
    rewrite N.eqb_refl. simpl. apply IH. reflexivity.
Qed.

Lemma eqb_refl (a : pystr) : PyStr.eqb a a = true.
Proof. apply eqb_eq. reflexivity. Qed.

Lemma eqb_neq (a b : pystr) : PyStr.eqb a b = false <-> a <> b.
Proof.
  split.
  - intros H E. apply eqb_eq in E. congruence.
  - intros H. destruct (PyStr.eqb a b) eqn:E; [|reflexivity].
    apply eqb_eq in E. contradiction.
Qed.

(** ** The regular expression *)

Section Regex.

Import Re.

Lemma star_rbrace_None (s : pystr) : star_rbrace s = None <-> ~ In rbrace s.
Proof.
  induction s as [|c s IH]; simpl.
  - tauto.
  - destruct (star_rbrace s) as [m|].
    + split; [discriminate|]. intros H. exfalso.
      assert (Hs : ~ In rbrace s) by tauto.
      apply IH in Hs. discriminate.
    + destruct (N.eqb_spec c rbrace) as [->|Hc].
      * split; [discriminate|]. intros H. exfalso. apply H. now left.
      * split; [|reflexivity]. intros _ [E|Hin]; [congruence|].
        now apply (proj1 IH).
Qed.

Lemma star_rbrace_Some (s m : pystr) :
  star_rbrace s = Some m ->
  exists mid post, s = mid ++ rbrace :: post /\ ~ In rbrace post /\ m = mid ++ [rbrace].
Proof.
  revert m; induction s as [|c s IH]; simpl; intros m H; [discriminate|].
  destruct (star_rbrace s) as [m'|] eqn:Es.
  - injection H as <-.
    destruct (IH m' eq_refl) as (mid & post & -> & Hpost & ->).
    exists (c :: mid), post. repeat split; assumption.
  - destruct (N.eqb_spec c rbrace) as [->|Hc]; [|discriminate].
    injection H as <-. exists [], s. repeat split.
    now apply star_rbrace_None.
Qed.

Lemma search_Some (s m : pystr) :
  search s = Some m ->
  exists pre mid post,
    s = pre ++ lbrace :: mid ++ rbrace :: post
    /\ ~ In lbrace pre /\ ~ In rbrace post /\ m = lbrace :: mid ++ [rbrace].
Proof.
  revert m; induction s as [|c s IH]; intros m; [discriminate|].
  cbn [search match_here].
  destruct (N.eqb_spec c lbrace) as [->|Hc].
  - destruct (star_rbrace s) as [m'|] eqn:Es.
    + intros H; injection H as <-.
      destruct (star_rbrace_Some s m' Es) as (mid & post & -> & Hpost & ->).
      exists [], mid, post. repeat split; auto.
    + intros H. destruct (IH m H) as (pre & mid & post & -> & _).
      apply star_rbrace_None in Es. exfalso. apply Es.
      apply in_or_app. right. right. apply in_or_app. right. now left.
  - intros H. destruct (IH m H) as (pre & mid & post & -> & Hpre & Hpost & ->).
    exists (c :: pre), mid, post. repeat split; auto.
    intros [E|Hin]; [congruence|contradiction].
Qed.

Lemma search_None (s : pystr) :
  search s = None ->
  forall pre mid post, s <> pre ++ lbrace :: mid ++ rbrace :: post.
Proof.
  induction s as [|c s IH]; intros H pre mid post E.
  - destruct pre; discriminate.
  - cbn [search match_here] in H.
    destruct pre as [|c' pre]; simpl in E; injection E as -> ->.
    + rewrite N.eqb_refl in H.
      destruct (star_rbrace (mid ++ rbrace :: post)) eqn:Es; [discriminate|].
      apply star_rbrace_None in Es. apply Es.
      apply in_or_app. right. now left.
    + destruct (if (c' =? lbrace)%N then _ else _); [discriminate|].
      exact (IH H pre mid post eq_refl).
Qed.

End Regex.

(** ** The intent parser *)

Lemma reason_for_not_empty (e : exception) : reason_for e <> [].
Proof. destruct e; discriminate. Qed.

Lemma parse_user_message_eq (rt : Runtime) service message :
  parse_user_message rt service message =
  match try_body rt service message with
  | Ok intent => Ok intent
  | Raise e => Ok (unknown (reason_for e))
  end.
Proof.
  unfold parse_user_message.
  destruct (try_body rt service message) as [intent|[msg|name msg]]; reflexivity.
Qed.

(** C8. The extraction step takes the part of the answer from its first
    opening brace to its last closing brace, whatever lies between them, and
    decodes it; an answer with no closing brace after an opening one is not
    decoded at all and the parse is the empty dict. *)
Theorem extract_json_first_to_last_brace (rt : Runtime) (text : pystr) :
  match Re.search text with
  | Some group =>
      (exists pre mid post,
          text = pre ++ Re.lbrace :: mid ++ Re.rbrace :: post
          /\ ~ In Re.lbrace pre /\ ~ In Re.rbrace post
          /\ group = Re.lbrace :: mid ++ [Re.rbrace])
      /\ extract_json rt text = json_loads rt group
  | None =>
      (forall pre mid post, text <> pre ++ Re.lbrace :: mid ++ Re.rbrace :: post)
      /\ extract_json rt text = Ok []
  end.
Proof.
  unfold extract_json.
  destruct (Re.search text) as [group|] eqn:E.
  - split; [|reflexivity]. now apply search_Some.
  - split; [|reflexivity]. now apply search_None.
Qed.

(** The decomposition of C8 read the other way: it fixes the match. *)
Lemma search_first_to_last_brace (pre mid post : pystr) :
  ~ In Re.lbrace pre -> ~ In Re.rbrace post ->
  Re.search (pre ++ Re.lbrace :: mid ++ Re.rbrace :: post)
  = Some (Re.lbrace :: mid ++ [Re.rbrace]).
Proof.
  intros Hpre Hpost.
  destruct (Re.search (pre ++ Re.lbrace :: mid ++ Re.rbrace :: post)) as [m|] eqn:E.
  - apply search_Some in E as (pre' & mid' & post' & E & Hpre' & Hpost' & ->).
    f_equal.
    assert (Hl : pre = pre').
    { clear - E Hpre Hpre'. revert pre' E Hpre'.
      induction pre as [|c pre IH]; intros [|c' pre'] E Hpre'; simpl in E.
      - reflexivity.
      - injection E as <- _. exfalso. apply Hpre'. now left.
      - injection E as -> _. exfalso. apply Hpre. now left.
      - injection E as <- E. f_equal. apply IH with (2 := E).
        + intros H. apply Hpre. now right.
        + intros H. apply Hpre'. now right. }
    subst pre'. apply app_inv_head in E. injection E as E.
    assert (Hr : rev post = rev post' /\ rev mid = rev mid').
    { assert (E' : rev post ++ Re.rbrace :: rev mid = rev post' ++ Re.rbrace :: rev mid').
      { rewrite <- (rev_involutive (rev post ++ Re.rbrace :: rev mid)).
        rewrite <- (rev_involutive (rev post' ++ Re.rbrace :: rev mid')).
        f_equal. rewrite !rev_app_distr. simpl. rewrite !rev_involutive.
        rewrite <- !app_assoc. exact E. }
      assert (Hp : ~ In Re.rbrace (rev post)) by (rewrite <- in_rev; exact Hpost).
      assert (Hp' : ~ In Re.rbrace (rev post')) by (rewrite <- in_rev; exact Hpost').
      clear - E' Hp Hp'. revert E' Hp Hp'. generalize (rev post') as b.
      induction (rev post) as [|c a IH]; intros [|c' b] E Ha Hb; simpl in E.
      - injection E as E. now split.
      - injection E as <- _. exfalso. apply Hb. now left.
      - injection E as -> _. exfalso. apply Ha. now left.
      - injection E as <- E. destruct (IH b E) as [-> ?].
        + intros H. apply Ha. now right.
        + intros H. apply Hb. now right.
        + now split. }
    destruct Hr as [_ Hm]. apply (f_equal (@rev char)) in Hm.
    rewrite !rev_involutive in Hm. now subst.
  - exfalso. exact (search_None _ E pre mid post eq_refl).
Qed.

(** C7. [parse_user_message] returns an intent whatever the message and
    whatever the language service, the decoder and the validation do; when
    anything in the body of its [try] raises, the intent is the unknown one
    and its reason names the exception; and each of the failures of the
    service, of the extraction, of the decoding and of the validation is such
    a raise. *)
Theorem parse_user_message_never_raises (rt : Runtime)
        (service : pystr -> py_result pystr) (message : pystr) :
  (exists intent, parse_user_message rt service message = Ok intent)
  /\ (forall intent, try_body rt service message = Ok intent ->
        parse_user_message rt service message = Ok intent)
  /\ (forall e, try_body rt service message = Raise e ->
        parse_user_message rt service message = Ok (unknown (reason_for e))
        /\ type (unknown (reason_for e)) = str "unknown"
        /\ data (unknown (reason_for e)) = Some (IsUnknown {| reason := reason_for e |})
        /\ reason_for e <> [])
  /\ (forall e, service message = Raise e -> try_body rt service message = Raise e)
  /\ (forall text, service message = Ok text -> Re.search text = None ->
        try_body rt service message = Raise (ValidationError (error_text rt [])))
  /\ (forall text group e, service message = Ok text -> Re.search text = Some group ->
        json_loads rt group = Raise e -> try_body rt service message = Raise e)
  /\ (forall text group kwargs, service message = Ok text ->
        Re.search text = Some group -> json_loads rt group = Ok kwargs ->
        validate_fields rt kwargs = None ->
        try_body rt service message = Raise (ValidationError (error_text rt kwargs))).
Proof.
  rewrite parse_user_message_eq.
  split; [|split; [|split; [|split; [|split; [|split]]]]].
  - destruct (try_body rt service message); eauto.
  - intros intent H. rewrite H. reflexivity.
  - intros e H. rewrite H.
    repeat split; auto using reason_for_not_empty.
  - intros e H. unfold try_body. rewrite H. reflexivity.
  - intros text H Hs. unfold try_body, extract_json. rewrite H. simpl.
    rewrite Hs. reflexivity.
  - intros text group e H Hs Hj. unfold try_body, extract_json. rewrite H. simpl.
    rewrite Hs, Hj. reflexivity.
  - intros text group kwargs H Hs Hj Hv. unfold try_body, extract_json.
    rewrite H. simpl. rewrite Hs, Hj. simpl. unfold UserIntent_init. rewrite Hv.
    destruct (get (str "type") kwargs); reflexivity.
Qed.

(** ** SQLite's [lower] and [LIKE] *)

Section Like.

Import Sqlite.

Lemma lower_char_idem (c : char) : lower_char (lower_char c) = lower_char c.
Proof.
  unfold lower_char.
  destruct ((65 <=? c) && (c <=? 90))%N eqn:E; [|now rewrite E].
  apply andb_true_iff in E as [E1 E2].
  apply N.leb_le in E1, E2.
  destruct ((65 <=? c + 32) && (c + 32 <=? 90))%N eqn:E'; [|reflexivity].
  apply andb_true_iff in E' as [_ E']. apply N.leb_le in E'. lia.
Qed.

Lemma lower_idem (s : pystr) : lower (lower s) = lower s.
Proof.
  unfold lower. rewrite map_map. apply map_ext. intros c. apply lower_char_idem.
Qed.

Lemma lower_char_is (c w : char) :
  w = percent \/ w = underscore -> lower_char c = w <-> c = w.
Proof.
  intros Hw. unfold lower_char, percent, underscore in *.
  destruct ((65 <=? c) && (c <=? 90))%N eqn:E; [|tauto].
  apply andb_true_iff in E as [E1 E2]. apply N.leb_le in E1, E2.
  split; intros H; destruct Hw; subst w; lia.
Qed.

Lemma wildcard_free_lower (s : pystr) : wildcard_free s -> wildcard_free (lower s).
Proof.
  intros [Hp Hu]. unfold lower. split; intros H; apply in_map_iff in H as (c & Hc & Hin).
  - apply (proj1 (lower_char_is c percent (or_introl eq_refl))) in Hc.
    subst c. contradiction.
  - apply (proj1 (lower_char_is c underscore (or_intror eq_refl))) in Hc.
    subst c. contradiction.
Qed.

(** One step of [%]: it stands for nothing, or for the head of the text
    and more. *)
Lemma like_percent_step (pat text : pystr) :
  like (percent :: pat) text
  = like pat text
    || match text with
       | [] => false
       | _ :: text' => like (percent :: pat) text'
       end.
Proof. cbn [like]. rewrite N.eqb_refl. destruct text; reflexivity. Qed.

(** A pattern matches itself, wildcards or not. *)
Lemma like_refl (x : pystr) : like x x = true.
Proof.
  induction x as [|c x IH]; [reflexivity|].
  destruct (N.eqb_spec c percent) as [->|Hc].
  - rewrite like_percent_step, like_percent_step, IH. apply orb_true_r.
  - cbn [like]. apply N.eqb_neq in Hc. rewrite Hc, IH, andb_true_r.
    destruct (N.eqb c underscore); [reflexivity|].
    unfold char_matches. now rewrite N.eqb_refl.
Qed.

Lemma char_matches_folded (p c : char) :
  lower_char p = p -> lower_char c = c -> char_matches p c = true -> p = c.
Proof.
  intros Hp Hc H. unfold char_matches in H.
  apply orb_true_iff in H as [H|H].
  - now apply N.eqb_eq.
  - apply andb_true_iff in H as [_ H]. apply N.eqb_eq in H. congruence.
Qed.

(** Without wildcards, on folded strings, [LIKE] is equality. *)
Lemma like_literal (pat text : pystr) :
  wildcard_free pat -> lower pat = pat -> lower text = text ->
  like pat text = true -> pat = text.
Proof.
  revert text; induction pat as [|c pat IH]; intros text [Hp Hu] Lp Lt H.
  - destruct text; [reflexivity|discriminate].
  - cbn [like] in H.
    destruct (N.eqb_spec c percent) as [->|_]; [exfalso; apply Hp; now left|].
    destruct (N.eqb_spec c underscore) as [->|_]; [exfalso; apply Hu; now left|].
    destruct text as [|d text]; [discriminate|].
    simpl in Lp, Lt. injection Lp as Lc Lp. injection Lt as Ld Lt.
    apply andb_true_iff in H as [Hcd H].
    apply char_matches_folded in Hcd; [|assumption..]. subst d. f_equal.
    apply IH; try assumption.
    split; intros Hin; [apply Hp|apply Hu]; now right.
Qed.

Lemma ilike_wildcard_free (column pat : pystr) :
  wildcard_free pat -> ilike column pat = true <-> lower column = lower pat.
Proof.
  intros Hw. unfold ilike. split.
  - intros H. symmetry. apply like_literal; auto using lower_idem, wildcard_free_lower.
  - intros ->. apply like_refl.
Qed.

Lemma ilike_same_case (column pat : pystr) :
  lower column = lower pat -> ilike column pat = true.
Proof. intros H. unfold ilike. rewrite H. apply like_refl. Qed.

(** The pattern [%] matches every text. *)
Lemma like_percent (text : pystr) : like [percent] text = true.
Proof.
  induction text as [|d text IH]; rewrite like_percent_step; [reflexivity|].
  rewrite IH. apply orb_true_r.
Qed.

End Like.

(** ** Conversion of integers to floats *)

Section FloatRange.

Lemma digits2_pos_upper (p : positive) : Zpos p < 2 ^ Zpos (digits2_pos p).
Proof.
  induction p as [p IH|p IH|]; cbn [digits2_pos];
    rewrite ?Pos2Z.inj_succ, ?Z.pow_succ_r by lia; lia.
Qed.

Lemma digits2_pos_le (p : positive) (k : Z) :
  0 <= k -> Zpos p < 2 ^ k -> Zpos (digits2_pos p) <= k.
Proof.
  revert k. induction p as [p IH|p IH|]; intros k Hk H; cbn [digits2_pos].
  - assert (k <> 0) by (intros ->; simpl in H; lia).
    replace k with (Z.succ (k - 1)) in H by lia.
    rewrite Z.pow_succ_r in H by lia.
    specialize (IH (k - 1)). rewrite Pos2Z.inj_succ. lia.
  - assert (k <> 0) by (intros ->; simpl in H; lia).
    replace k with (Z.succ (k - 1)) in H by lia.
    rewrite Z.pow_succ_r in H by lia.
    specialize (IH (k - 1)). rewrite Pos2Z.inj_succ. lia.
  - assert (k <> 0) by (intros ->; simpl in H; lia). lia.
Qed.

Lemma Zdigits2_le (x k : Z) : 0 <= k -> 0 <= x < 2 ^ k -> Zdigits2 x <= k.
Proof.
  intros Hk [H0 H]. destruct x as [|p|p]; simpl; [lia| |lia].
  now apply digits2_pos_le.
Qed.

Lemma Zdigits2_upper (x : Z) : 0 <= x -> x < 2 ^ Zdigits2 x.
Proof.
  intros H. destruct x as [|p|p]; simpl; [lia| |lia].
  apply digits2_pos_upper.
Qed.

Lemma digits2_pos_iter_xO (m d : positive) :
  Zpos (digits2_pos (Pos.iter xO m d)) = Zpos (digits2_pos m) + Zpos d.
Proof.
  induction d as [|d IH] using Pos.peano_ind.
  - simpl. lia.
  - rewrite Pos.iter_succ. cbn [digits2_pos]. lia.
Qed.

Lemma iter_pos_invariant {A : Type} (P : A -> Prop) (f : A -> A) :
  (forall x, P x -> P (f x)) -> forall n x, P x -> P (iter_pos f n x).
Proof. intros Hf. induction n; simpl; auto. Qed.

Lemma shr_fexp_bounds (m e : Z) (l : location) :
  0 <= m ->
  0 <= shr_m (fst (shr_fexp prec emax m e l)) <= m
  /\ snd (shr_fexp prec emax m e l) = Z.max e (fexp prec emax (Zdigits2 m + e)).
Proof.
  intros Hm. unfold shr_fexp, shr.
  assert (Hloc : shr_m (shr_record_of_loc m l) = m) by (destruct l as [|[]]; reflexivity).
  destruct (fexp prec emax (Zdigits2 m + e) - e) as [|n|n] eqn:E; cbn [fst snd].
  - rewrite Hloc. lia.
  - split; [|lia].
    apply (iter_pos_invariant (fun mrs => 0 <= shr_m mrs <= m)); [|rewrite Hloc; lia].
    intros [x r s]. cbn [shr_m]. intros Hx.
    destruct x as [|[p|p|]|[p|p|]]; cbn [shr_1 shr_m]; lia.
  - rewrite Hloc. lia.
Qed.

Lemma binary_round_aux_finite (sx : bool) (mx : positive) (ex : Z) :
  Zpos (digits2_pos mx) <= 64 -> -64 <= ex <= 0 ->
  forall s, binary_round_aux prec emax sx (Zpos mx) ex loc_Exact <> S754_infinity s.
Proof.
  intros Hd Hex s. unfold binary_round_aux.
  pose proof (shr_fexp_bounds (Zpos mx) ex loc_Exact ltac:(lia)) as [Hm1 He1].
  destruct (shr_fexp prec emax (Zpos mx) ex loc_Exact) as [mrs1 e1].
  cbn [fst snd] in Hm1, He1.
  set (mr := round_nearest_even (shr_m mrs1) (loc_of_shr_record mrs1)).
  assert (Hmr : 0 <= mr <= Zpos mx + 1).
  { unfold mr, round_nearest_even.
    destruct (loc_of_shr_record mrs1) as [|[]]; try lia.
    destruct (Z.even (shr_m mrs1)); lia. }
  pose proof (shr_fexp_bounds mr e1 loc_Exact ltac:(lia)) as [Hm2 He2].
  destruct (shr_fexp prec emax mr e1 loc_Exact) as [mrs2 e2].
  cbn [fst snd] in Hm2, He2.
  assert (Hx : Zpos mx < 2 ^ 64).
  { pose proof (digits2_pos_upper mx).
    assert (2 ^ Zpos (digits2_pos mx) <= 2 ^ 64) by (apply Z.pow_le_mono_r; lia). lia. }
  assert (Hdr : Zdigits2 mr <= 65).
  { apply Zdigits2_le; [lia|]. change (2 ^ 65) with (2 * 2 ^ 64). lia. }
  assert (Hdx : Zdigits2 (Zpos mx) <= 64) by exact Hd.
  unfold fexp, SpecFloat.emin, prec, emax in *.
  destruct (shr_m mrs2); try discriminate.
  destruct (Z.leb_spec e2 (1024 - 53)); [discriminate|lia].
Qed.

Lemma binary_normalize_finite (n : Z) :
  0 <= n < 2 ^ 63 -> forall s, binary_normalize prec emax n 0 false <> S754_infinity s.
Proof.
  intros [H0 Hn] s. destruct n as [|m|m]; [discriminate| |lia].
  cbn [binary_normalize]. unfold binary_round.
  assert (Hd : Zpos (digits2_pos m) <= 63) by (apply digits2_pos_le; lia).
  unfold shl_align.
  destruct (fexp prec emax (Zpos (digits2_pos m) + 0) - 0) as [|d|d] eqn:E;
    unfold fexp, SpecFloat.emin, prec, emax in *.
  - apply binary_round_aux_finite; lia.
  - apply binary_round_aux_finite; lia.
  - apply binary_round_aux_finite; [rewrite digits2_pos_iter_xO|]; lia.
Qed.

(** An [int] that fits a column of SQLite converts to a [float]. *)
Lemma float_of_int_in_range (n : Z) :
  0 <= n < 2 ^ 63 -> exists y, float_of_int n = Ok y.
Proof.
  intros Hn. unfold float_of_int.
  pose proof (binary_normalize_finite n Hn) as H.
  destruct (binary_normalize prec emax n 0 false) as [s|s| |s m e]; eauto.
  now destruct (H s).
Qed.

End FloatRange.

(** ** The store *)

Lemma next_rowid_fresh (ids : list Z) : ~ In (next_rowid ids) ids.
Proof.
  assert (bound : forall i rest x, In x (i :: rest) -> x <= fold_right Z.max i rest).
  { intros i rest. induction rest as [|j rest IH]; simpl; intros x H.
    - destruct H as [->|[]]. lia.
    - destruct H as [->|[->|H]].
      + specialize (IH x (or_introl eq_refl)). lia.
      + lia.
      + specialize (IH x (or_intror H)). lia. }
  destruct ids as [|i rest]; [tauto|].
  intros H. apply bound in H. unfold next_rowid in H. lia.
Qed.

(** Where the id is a key, the [UPDATE] of [commit] rewrites one row. *)
Lemma update_one_row (rows before after : list Product.t) (p : Product.t) (s : Z) :
  NoDup (map Product.id rows) -> rows = before ++ p :: after ->
  map (fun row => if Product.id row =? Product.id p then Product.with_stock row s else row) rows
  = before ++ Product.with_stock p s :: after.
Proof.
  intros Hkey ->. rewrite map_app in Hkey. simpl in Hkey.
  apply NoDup_remove in Hkey as [_ Hp].
  assert (keep : forall l, ~ In (Product.id p) (map Product.id l) ->
            map (fun row => if Product.id row =? Product.id p
                            then Product.with_stock row s else row) l = l).
  { induction l as [|r l IH]; simpl; intros H; [reflexivity|].
    destruct (Z.eqb_spec (Product.id r) (Product.id p)) as [E|_].
    - exfalso. apply H. now left.
    - f_equal. apply IH. tauto. }
  rewrite map_app. simpl. rewrite Z.eqb_refl.
  rewrite !keep; [reflexivity| |]; intros H; apply Hp, in_or_app; tauto.
Qed.

Section WorkflowFacts.

Variable rt : Runtime.

Lemma product_named_Some (st : Store) (n : pystr) (p : Product.t) :
  product_named st n = Some p -> In p (products st) /\ Product.name p = n.
Proof.
  intros H. apply find_some in H as [Hin H]. split; [assumption|].
  now apply eqb_eq.
Qed.

(** The loop is a search for the first name that passes the test. *)
Lemma similarity_find (st : Store) (name : pystr) (names : list pystr) :
  similarity rt st name names
  = match find (name_contains rt name) names with
    | Some p_name => product_named st p_name
    | None => None
    end.
Proof.
  induction names as [|n names IH]; simpl; [reflexivity|].
  unfold name_contains at 1.
  destruct (contains (py_lower rt n) (py_lower rt name)); [reflexivity|assumption].
Qed.

Lemma similarity_In (st : Store) (name : pystr) (names : list pystr) (p : Product.t) :
  similarity rt st name names = Some p -> In p (products st).
Proof.
  rewrite similarity_find.
  destruct (find (name_contains rt name) names); [|discriminate].
  intros H. now apply product_named_Some in H.
Qed.

Lemma resolve_In (st : Store) (name : pystr) (p : Product.t) :
  resolve rt st name = Some p -> In p (products st).
Proof.
  unfold resolve. destruct (exact_match st name) as [q|] eqn:E.
  - intros H; injection H as <-. now apply find_some in E.
  - apply similarity_In.
Qed.

(** What a purchase does once the quantity is positive, the product is
    resolved, the stock suffices and the total is computed. *)
Lemma purchase_succeeds (now : Z) (intent : PurchaseIntent) (st : Store)
      (p : Product.t) (total : float) :
  0 < quantity intent ->
  resolve rt st (strip (product_name intent)) = Some p ->
  quantity intent <= Product.stock p ->
  float_mul_int (Product.price p) (quantity intent) = Ok total ->
  purchase rt now intent st
  = (Returns {| message_quantity := quantity intent;
                message_product := Product.name p;
                message_total := total;
                stock_restante := Product.stock p - quantity intent |},
     commit st (Product.with_stock p (Product.stock p - quantity intent))
            (Transaction.mk (next_rowid (map Transaction.id (transactions st)))
                            (Product.id p) (quantity intent) total now)).
Proof.
  intros Hq Hr Hs Ht. unfold purchase.
  destruct (Z.leb_spec (quantity intent) 0); [lia|].
  rewrite Hr.
  destruct (Z.ltb_spec (Product.stock p) (quantity intent)); [lia|].
  cbn [Product.price Product.with_stock Product.id Product.name Product.stock].
  rewrite Ht. reflexivity.
Qed.

(** With a stock that fits a column of SQLite, the total is always computed:
    the purchase returns. *)
Lemma purchase_returns_in_range (now : Z) (intent : PurchaseIntent) (st : Store)
      (p : Product.t) :
  resolve rt st (strip (product_name intent)) = Some p ->
  0 < quantity intent <= Product.stock p ->
  Product.stock p < 2 ^ 63 ->
  exists body st', purchase rt now intent st = (Returns body, st').
Proof.
  intros Hr [Hq Hs] Hmax.
  destruct (float_of_int_in_range (quantity intent)) as [y Hy]; [lia|].
  eexists. eexists.
  apply (purchase_succeeds now intent st p (PrimFloat.mul (Product.price p) y));
    auto.
  unfold float_mul_int. rewrite Hy. reflexivity.
Qed.

(** The converse: a purchase that returns went through every check. *)
Lemma purchase_returns (now : Z) (intent : PurchaseIntent) (st st' : Store)
      (body : PurchaseResponse) :
  purchase rt now intent st = (Returns body, st') ->
  exists p total,
    0 < quantity intent
    /\ resolve rt st (strip (product_name intent)) = Some p
    /\ quantity intent <= Product.stock p
    /\ float_mul_int (Product.price p) (quantity intent) = Ok total.
Proof.
  unfold purchase.
  destruct (Z.leb_spec (quantity intent) 0); [discriminate|].
  destruct (resolve rt st (strip (product_name intent))) as [p|]; [|discriminate].
  destruct (Z.ltb_spec (Product.stock p) (quantity intent)); [discriminate|].
  cbn [Product.price Product.with_stock].
  destruct (float_mul_int (Product.price p) (quantity intent)) as [total|e] eqn:Et;
    [|discriminate].
  intros _. exists p, total. repeat split; auto; lia.
Qed.

(** Every way a purchase can end without returning leaves the store as it
    was. *)
Lemma purchase_no_return (now : Z) (intent : PurchaseIntent) (st : Store) :
  (exists body, fst (purchase rt now intent st) = Returns body)
  \/ snd (purchase rt now intent st) = st.
Proof.
  unfold purchase.
  destruct (quantity intent <=? 0); [now right|].
  destruct (resolve rt st (strip (product_name intent))) as [p|]; [|now right].
  destruct (Product.stock p <? quantity intent); [now right|].
  destruct (float_mul_int _ _); [left; eexists; reflexivity|now right].
Qed.

End WorkflowFacts.

(** ** The purchase workflow *)

(** With the type and the data of a purchase, [interact] is [purchase]. *)
Lemma interact_purchase (rt : Runtime) service (now : Z) (message : pystr)
      (st : Store) (d : PurchaseIntent) :
  parse_user_message rt service message
  = Ok {| type := str "purchase"; data := Some (IsPurchase d) |} ->
  interact rt service now message st = purchase rt now d st.
Proof. intros H. unfold interact. rewrite H. reflexivity. Qed.

(** C1. A purchase that returns resolved a product [p], with a quantity that
    is positive and at most the stock of [p]; where the id is the key of the
    product table, the table after it is the table before it with the stock
    of [p] lowered by the quantity and every other row as it was, and the
    transaction table is the one before it followed by one new row, with a
    fresh id, the id of [p], the quantity and the price of [p] times the
    quantity. *)
Theorem purchase_effect (rt : Runtime) (now : Z) (intent : PurchaseIntent)
        (st st' : Store) (body : PurchaseResponse) :
  primary_key st ->
  purchase rt now intent st = (Returns body, st') ->
  exists p before after total new_id,
    resolve rt st (strip (product_name intent)) = Some p
    /\ 0 < quantity intent <= Product.stock p
    /\ float_mul_int (Product.price p) (quantity intent) = Ok total
    /\ products st = before ++ p :: after
    /\ products st'
       = before ++ Product.with_stock p (Product.stock p - quantity intent) :: after
    /\ transactions st'
       = transactions st
         ++ [Transaction.mk new_id (Product.id p) (quantity intent) total now]
    /\ ~ In new_id (map Transaction.id (transactions st))
    /\ stock_restante body = Product.stock p - quantity intent.
Proof.
  intros Hkey H.
  destruct (purchase_returns rt now intent st st' body H) as (p & total & Hq & Hr & Hs & Ht).
  rewrite (purchase_succeeds rt now intent st p total Hq Hr Hs Ht) in H.
  injection H as <- <-.
  destruct (in_split p (products st) (resolve_In rt st _ p Hr)) as (before & after & Hrows).
  exists p, before, after, total, (next_rowid (map Transaction.id (transactions st))).
  repeat split; try assumption.
  - unfold commit.
    cbn [products Product.id Product.stock Product.with_stock].
    now apply update_one_row.
  - apply next_rowid_fresh.
Qed.

(** C2. A purchase of more than the stock of the product it resolves, a
    stock that is not negative as the store keeps it, raises the 400 error
    that reports that stock, and the store is as it was: no stock is lowered
    and no transaction is added. *)
Theorem purchase_insufficient_stock (rt : Runtime) (now : Z) (intent : PurchaseIntent)
        (st : Store) (p : Product.t) :
  resolve rt st (strip (product_name intent)) = Some p ->
  0 <= Product.stock p ->
  Product.stock p < quantity intent ->
  purchase rt now intent st
  = (HTTPException 400 (InsufficientStock (Product.stock p)), st).
Proof.
  intros Hr Hp Hlt. unfold purchase.
  destruct (Z.leb_spec (quantity intent) 0); [lia|].
  rewrite Hr.
  destruct (Z.ltb_spec (Product.stock p) (quantity intent)); [reflexivity|lia].
Qed.

(** C3. A purchase of a quantity that is zero or negative raises the 400
    error of the quantity, whatever the name and whatever the store, and the
    store is as it was: no product is looked up before. *)
Theorem purchase_invalid_quantity (rt : Runtime) (now : Z) (intent : PurchaseIntent)
        (st : Store) :
  quantity intent <= 0 ->
  purchase rt now intent st = (HTTPException 400 InvalidQuantity, st).
Proof.
  intros Hq. unfold purchase.
  destruct (Z.leb_spec (quantity intent) 0); [reflexivity|lia].
Qed.

Lemma purchase_stocks_nonnegative (rt : Runtime) (now : Z) (intent : PurchaseIntent)
      (st : Store) :
  stocks_nonnegative st -> stocks_nonnegative (snd (purchase rt now intent st)).
Proof.
  intros Hinv. unfold purchase.
  destruct (quantity intent <=? 0); [assumption|].
  destruct (resolve rt st (strip (product_name intent))) as [p|]; [|assumption].
  destruct (Z.ltb_spec (Product.stock p) (quantity intent)); [assumption|].
  destruct (float_mul_int _ _); [|assumption].
  unfold stocks_nonnegative, commit in *. cbn [snd products].
  rewrite Forall_forall in *. intros row Hrow.
  apply in_map_iff in Hrow as (r & <- & Hr).
  destruct (Product.id r =? Product.id _).
  - cbn [Product.stock Product.with_stock]. lia.
  - now apply Hinv.
Qed.

Lemma interact_stocks_nonnegative (rt : Runtime) service (now : Z) (message : pystr)
      (st : Store) :
  stocks_nonnegative st ->
  stocks_nonnegative (snd (interact rt service now message st)).
Proof.
  intros Hinv. unfold interact.
  destruct (parse_user_message rt service message) as [intent|e]; [|assumption].
  destruct (PyStr.eqb (type intent) (str "purchase")), (data intent) as [[d|d]|];
    try (now apply purchase_stocks_nonnegative);
    destruct (PyStr.eqb (type intent) (str "unknown")); assumption.
Qed.

Lemma startup_stocks_nonnegative (st : Store) :
  stocks_nonnegative st -> stocks_nonnegative (startup st).
Proof.
  intros Hinv. unfold startup. destruct (products st) eqn:E; [|assumption].
  unfold stocks_nonnegative. cbn [products].
  repeat constructor; simpl; lia.
Qed.

Lemma run_stocks_nonnegative (rt : Runtime) (requests : list Request) (st : Store) :
  stocks_nonnegative st -> stocks_nonnegative (run rt requests st).
Proof.
  unfold run. revert st.
  induction requests as [|r requests IH]; intros st Hinv; [assumption|].
  simpl. apply IH. destruct r; simpl; try assumption.
  now apply interact_stocks_nonnegative.
Qed.

(** C4. No request makes a stock negative: from a store with no negative
    stock, any sequence of requests, reads and purchases, returning or
    failing, ends in a store with no negative stock, and so does it after
    [startup]. *)
Theorem stock_never_negative (rt : Runtime) (requests : list Request) (st : Store) :
  stocks_nonnegative st ->
  stocks_nonnegative (run rt requests st)
  /\ stocks_nonnegative (run rt requests (startup st)).
Proof.
  intros Hinv. split; apply run_stocks_nonnegative; [assumption|].
  now apply startup_stocks_nonnegative.
Qed.

Lemma find_same_test {A : Type} (f g : A -> bool) (l : list A) :
  (forall x, f x = g x) -> find f l = find g l.
Proof.
  intros H. induction l as [|x l IH]; simpl; [reflexivity|].
  rewrite H, IH. reflexivity.
Qed.

Lemma product_named_stored (st : Store) (n : pystr) :
  In n (map Product.name (products st)) -> exists p, product_named st n = Some p.
Proof.
  intros H. apply in_map_iff in H as (row & Hn & Hrow).
  unfold product_named.
  destruct (find (fun p => PyStr.eqb (Product.name p) n) (products st)) as [p|] eqn:E;
    [now exists p|].
  apply (find_none _ _ E) in Hrow. rewrite Hn, eqb_refl in Hrow. discriminate.
Qed.

(** C6. When the exact match finds nothing and the store lists the stored
    names, in whatever order, the product resolved is the one named by the
    first name listed whose lower-case form contains the lower-case form of
    the stripped request; so it is the one stored product whose name
    contains it when there is just one, and when no stored name contains it
    the purchase of a positive quantity raises the 404 error and the store is
    as it was. *)
Theorem fallback_first_containing (rt : Runtime) (st : Store) (raw : pystr) :
  exact_match st (strip raw) = None ->
  Permutation (scan_names rt (products st)) (map Product.name (products st)) ->
  match find (name_contains rt (strip raw)) (scan_names rt (products st)) with
  | Some p_name =>
      exists p, resolve rt st (strip raw) = Some p
                /\ product_named st p_name = Some p
                /\ In p (products st) /\ Product.name p = p_name
  | None => resolve rt st (strip raw) = None
  end
  /\ (forall p, In p (products st) ->
        name_contains rt (strip raw) (Product.name p) = true ->
        (forall p', In p' (products st) ->
           name_contains rt (strip raw) (Product.name p') = true -> p' = p) ->
        resolve rt st (strip raw) = Some p)
  /\ ((forall p, In p (products st) ->
         name_contains rt (strip raw) (Product.name p) = false) ->
      forall now q, 0 < q ->
        purchase rt now {| product_name := raw; quantity := q |} st
        = (HTTPException 404 (ProductNotFound (strip raw)), st)).
Proof.
  intros Hexact Hperm.
  assert (Hres : resolve rt st (strip raw)
                 = match find (name_contains rt (strip raw)) (scan_names rt (products st)) with
                   | Some p_name => product_named st p_name
                   | None => None
                   end).
  { unfold resolve. rewrite Hexact. apply similarity_find. }
  assert (Hstored : forall n, find (name_contains rt (strip raw))
                                   (scan_names rt (products st)) = Some n ->
                    name_contains rt (strip raw) n = true
                    /\ exists p, product_named st n = Some p
                                 /\ In p (products st) /\ Product.name p = n).
  { intros n Hn. apply find_some in Hn as [Hin Htest]. split; [assumption|].
    destruct (product_named_stored st n (Permutation_in _ Hperm Hin)) as [p Hp].
    exists p. split; [assumption|]. now apply product_named_Some. }
  split; [|split].
  - destruct (find _ _) as [n|] eqn:E; [|assumption].
    destruct (Hstored n eq_refl) as (_ & p & Hp & Hin & Hname).
    exists p. rewrite Hres. auto.
  - intros p Hin Htest Huniq. rewrite Hres.
    destruct (find _ _) as [n|] eqn:E.
    + destruct (Hstored n eq_refl) as (Hn & p' & Hp' & Hin' & Hname').
      rewrite Hp'. f_equal. apply Huniq; [assumption|]. now rewrite Hname'.
    + exfalso.
      assert (Hscan : In (Product.name p) (scan_names rt (products st))).
      { apply (Permutation_in _ (Permutation_sym Hperm)). now apply in_map. }
      apply (find_none _ _ E) in Hscan. congruence.
  - intros Hnone now q Hq. unfold purchase. cbn [product_name quantity].
    destruct (Z.leb_spec q 0); [lia|].
    rewrite Hres.
    destruct (find _ _) as [n|] eqn:E; [|reflexivity].
    destruct (Hstored n eq_refl) as (Hn & p & _ & Hin & Hname).
    specialize (Hnone p Hin). congruence.
Qed.

(** C9. When the parser returns an intent of type purchase whose data is not
    a purchase, or an intent whose type is neither purchase nor unknown,
    [interact] raises the 500 error and the store is as it was. *)
Theorem interact_unexpected_intent (rt : Runtime) service (now : Z) (message : pystr)
        (st : Store) (intent : UserIntent) :
  parse_user_message rt service message = Ok intent ->
  (type intent = str "purchase" /\ (forall d, data intent <> Some (IsPurchase d)))
  \/ (type intent <> str "purchase" /\ type intent <> str "unknown") ->
  interact rt service now message st = (HTTPException 500 UnexpectedError, st).
Proof.
  intros Hparse Hcase. unfold interact. rewrite Hparse.
  destruct Hcase as [[Hty Hdata]|[Hp Hu]].
  - rewrite Hty. simpl.
    destruct (data intent) as [[d|d]|]; try reflexivity.
    exfalso. now apply (Hdata d).
  - apply eqb_neq in Hp, Hu. rewrite Hp, Hu. reflexivity.
Qed.

(** C10. The exact match reads the requested name as a [LIKE] pattern: the
    request [%] resolves to the first row of any non-empty table, and [P_PSI]
    to Pepsi in the seeded one, neither being the name of that row up to
    letter case. *)
Theorem exact_match_is_a_like_pattern :
  (forall p rest txs,
      exact_match {| products := p :: rest; transactions := txs |} (str "%") = Some p)
  /\ (exists p,
         exact_match Demo.seeded (str "%") = Some p
         /\ In Sqlite.percent (str "%")
         /\ Product.name p = str "Coca-Cola"
         /\ Sqlite.lower (Product.name p) <> Sqlite.lower (str "%")
         /\ Demo.lower (Product.name p) <> Demo.lower (str "%"))
  /\ (exists p,
         exact_match Demo.seeded (str "P_PSI") = Some p
         /\ In Sqlite.underscore (str "P_PSI")
         /\ Product.name p = str "Pepsi"
         /\ Sqlite.lower (Product.name p) <> Sqlite.lower (str "P_PSI")
         /\ Demo.lower (Product.name p) <> Demo.lower (str "P_PSI")).
Proof.
  split; [|split].
  - intros p rest txs. unfold exact_match. cbn [products find].
    unfold Sqlite.ilike. change (Sqlite.lower (str "%")) with [Sqlite.percent].
    now rewrite like_percent.
  - eexists. split; [reflexivity|]. repeat split.
    + now left.
    + discriminate.
    + discriminate.
  - eexists. split; [reflexivity|]. repeat split.
    + right. now left.
    + discriminate.
    + discriminate.
Qed.

(** ** The properties on the seeded machine *)

Lemma seeded_primary_key : primary_key Demo.seeded.
Proof.
  unfold primary_key. simpl.
  repeat constructor; simpl; intuition discriminate.
Qed.

Lemma seeded_stocks_nonnegative : stocks_nonnegative Demo.seeded.
Proof. unfold stocks_nonnegative. simpl. repeat constructor; simpl; lia. Qed.

(** The example of the specification: three colas out of a hundred at 2.50. *)
Example three_colas_example :
  purchase Demo.runtime 7 Demo.order Demo.seeded
  = (Returns Demo.receipt, Demo.after_order).
Proof. reflexivity. Qed.

(** The same purchase through the endpoint. *)
Example three_colas_interact :
  interact Demo.runtime (fun _ => Ok Demo.three_colas) 7 (str "3 colas") Demo.seeded
  = (Returns {| message_quantity := 3; message_product := str "Coca-Cola";
                message_total := 7.5%float; stock_restante := 97 |},
     {| products := [Product.with_stock Demo.coca_cola 97; Demo.pepsi; Demo.guarana];
        transactions := [Transaction.mk 1 1 3 7.5%float 7] |}).
Proof. vm_compute. reflexivity. Qed.

(** The other example of the specification: no Sprite. *)
Example sprite_example :
  purchase Demo.runtime 7 {| product_name := str "Sprite"; quantity := 1 |} Demo.seeded
  = (HTTPException 404 (ProductNotFound (str "Sprite")), Demo.seeded).
Proof. reflexivity. Qed.

(** The capitals of the third seed are not matched exactly, and are resolved
    by the loop over the names. *)
Example guarana_capitals :
  exact_match Demo.seeded (strip Demo.GUARANA) = None
  /\ resolve Demo.runtime Demo.seeded (strip Demo.GUARANA) = Some Demo.guarana.
Proof. split; reflexivity. Qed.

(** A stored name with a wildcard is a pattern for the rows before it. *)
Example wildcard_name_example :
  exact_match Demo.discounts (strip (str " 100% "))
  = Some (Product.mk 1 (str "1000 ml") 3%float 10).
Proof. reflexivity. Qed.

(** Of two names that differ in case only, the exact match finds the first,
    whichever is requested. *)
Example twins_example :
  exact_match Demo.twins (strip (str "Pepsi")) = Some (Product.mk 1 (str "pepsi") 2%float 10).
Proof. reflexivity. Qed.

(** White space inside the requested name is kept by [strip]: no exact match,
    and no name contains it. *)
Example inner_space_example :
  resolve Demo.runtime Demo.seeded (strip (str "Coca- Cola")) = None.
Proof. reflexivity. Qed.

(** A request made of a wildcard buys the first product of the table. *)
Example percent_purchase_example :
  fst (purchase Demo.runtime 7 {| product_name := str "%"; quantity := 1 |} Demo.seeded)
  = Returns {| message_quantity := 1; message_product := str "Coca-Cola";
               message_total := 2.5%float; stock_restante := 99 |}.
Proof. reflexivity. Qed.

Lemma purchase_effect_witness :
  exists p before after total new_id,
    resolve Demo.runtime Demo.seeded (strip (product_name Demo.order)) = Some p
    /\ 0 < quantity Demo.order <= Product.stock p
    /\ float_mul_int (Product.price p) (quantity Demo.order) = Ok total
    /\ products Demo.seeded = before ++ p :: after
    /\ products Demo.after_order
       = before ++ Product.with_stock p (Product.stock p - quantity Demo.order) :: after
    /\ transactions Demo.after_order
       = transactions Demo.seeded
         ++ [Transaction.mk new_id (Product.id p) (quantity Demo.order) total 7]
    /\ ~ In new_id (map Transaction.id (transactions Demo.seeded))
    /\ stock_restante Demo.receipt = Product.stock p - quantity Demo.order.
Proof.
  apply (purchase_effect Demo.runtime 7 Demo.order Demo.seeded Demo.after_order
                         Demo.receipt).
  - unfold primary_key. simpl. repeat constructor; simpl; intuition discriminate.
  - reflexivity.
Defined.

Lemma purchase_insufficient_stock_witness :
  purchase Demo.runtime 7 {| product_name := str "pepsi"; quantity := 81 |} Demo.seeded
  = (HTTPException 400 (InsufficientStock 80), Demo.seeded).
Proof.
  apply (purchase_insufficient_stock Demo.runtime 7
           {| product_name := str "pepsi"; quantity := 81 |} Demo.seeded Demo.pepsi).
  - reflexivity.
  - simpl. lia.
  - simpl. lia.
Defined.

Lemma purchase_invalid_quantity_witness :
  purchase Demo.runtime 7 {| product_name := str "Sprite"; quantity := 0 |} Demo.seeded
  = (HTTPException 400 InvalidQuantity, Demo.seeded).
Proof.
  apply (purchase_invalid_quantity Demo.runtime 7
           {| product_name := str "Sprite"; quantity := 0 |} Demo.seeded).
  simpl. lia.
Defined.

Lemma stock_never_negative_witness :
  stocks_nonnegative (run Demo.runtime Demo.morning Demo.seeded)
  /\ stocks_nonnegative (run Demo.runtime Demo.morning (startup Demo.seeded)).
Proof.
  apply (stock_never_negative Demo.runtime Demo.morning Demo.seeded).
  unfold stocks_nonnegative. simpl. repeat constructor; simpl; lia.
Defined.

(** The morning sells six colas. *)
Example morning_example :
  map Product.stock (products (run Demo.runtime Demo.morning Demo.seeded)) = [94; 80; 120]
  /\ map Transaction.id (transactions (run Demo.runtime Demo.morning Demo.seeded)) = [1; 2].
Proof. split; vm_compute; reflexivity. Qed.

(** C5. The code breaks the claim at requests that are variants of a stored
    name.  On the seeded store the capitals of the third seed, a variant of
    its name under [str.lower], are not matched exactly; with a second
    product whose name contains that name, the same request buys the second
    product; and a stored name with a wildcard, requested as it is stored
    between two spaces, is matched to another product.  So neither with
    [str.lower] nor with the ASCII fold does the exact match return the
    product named for every variant of its name. *)
Theorem exact_match_misses_variants :
  (In Demo.guarana (products Demo.seeded)
   /\ variant_of Demo.lower Demo.GUARANA (Product.name Demo.guarana)
   /\ exact_match Demo.seeded (strip Demo.GUARANA) = None)
  /\ (In Demo.guarana2 (products Demo.guaranas)
      /\ variant_of Demo.lower Demo.GUARANA (Product.name Demo.guarana2)
      /\ exact_match Demo.guaranas (strip Demo.GUARANA) = None
      /\ purchase Demo.runtime 7 {| product_name := Demo.GUARANA; quantity := 1 |}
                  Demo.guaranas
         = (Returns {| message_quantity := 1;
                       message_product := Product.name Demo.diet_guarana;
                       message_total := 3%float;
                       stock_restante := 49 |},
            {| products := [Product.with_stock Demo.diet_guarana 49; Demo.guarana2];
               transactions := [Transaction.mk 1 1 1 3%float 7] |}))
  /\ (In Demo.hundred_percent (products Demo.discounts)
      /\ variant_of Sqlite.lower (str " 100% ") (Product.name Demo.hundred_percent)
      /\ exact_match Demo.discounts (strip (str " 100% "))
         = Some (Product.mk 1 (str "1000 ml") 3%float 10))
  /\ ~ (forall (st : Store) (p : Product.t) (raw : pystr),
          In p (products st) ->
          variant_of Demo.lower raw (Product.name p) ->
          exists found, exact_match st (strip raw) = Some found
                        /\ Product.name found = Product.name p)
  /\ ~ (forall (st : Store) (p : Product.t) (raw : pystr),
          In p (products st) ->
          variant_of Sqlite.lower raw (Product.name p) ->
          exists found, exact_match st (strip raw) = Some found
                        /\ Product.name found = Product.name p).
Proof.
  split; [|split; [|split; [|split]]].
  - repeat split. simpl. tauto.
  - repeat split. simpl. tauto.
  - repeat split. simpl. tauto.
  - intros H.
    destruct (H Demo.seeded Demo.guarana Demo.GUARANA) as (found & Hfound & _).
    + simpl. tauto.
    + reflexivity.
    + discriminate.
  - intros H.
    destruct (H Demo.discounts Demo.hundred_percent (str " 100% "))
      as (found & Hfound & Hname).
    + simpl. tauto.
    + reflexivity.
    + injection Hfound as <-. discriminate.
Qed.

Lemma fallback_first_containing_witness :
  resolve Demo.runtime Demo.seeded (strip (str " cola ")) = Some Demo.coca_cola
  /\ purchase Demo.runtime 7 {| product_name := str " fanta"; quantity := 1 |} Demo.seeded
     = (HTTPException 404 (ProductNotFound (str "fanta")), Demo.seeded).
Proof.
  split.
  - refine (proj1 (proj2 (fallback_first_containing Demo.runtime Demo.seeded
                            (str " cola ") _ _)) Demo.coca_cola _ _ _).
    + reflexivity.
    + apply Permutation_refl.
    + simpl. tauto.
    + reflexivity.
    + intros p' [<-|[<-|[<-|[]]]]; [reflexivity|discriminate|discriminate].
  - refine (proj2 (proj2 (fallback_first_containing Demo.runtime Demo.seeded
                            (str " fanta") _ _)) _ 7 1 _).
    + reflexivity.
    + apply Permutation_refl.
    + intros p [<-|[<-|[<-|[]]]]; reflexivity.
    + lia.
Defined.

Lemma parse_user_message_never_raises_witness :
  parse_user_message Demo.runtime (fun _ => Ok (str "no json here } {")) (str "oi")
  = Ok (unknown (validation_prefix ++ str "validation error for UserIntent"))
  /\ parse_user_message Demo.runtime
       (fun _ => Raise (OtherException (str "ResourceExhausted") (str "429 quota")))
       (str "oi")
     = Ok (unknown (str "Erro com Gemini: ResourceExhausted: 429 quota")).
Proof.
  split.
  - destruct (parse_user_message_never_raises Demo.runtime
                (fun _ => Ok (str "no json here } {")) (str "oi"))
      as (_ & _ & Hraise & _ & Hnone & _).
    apply (Hraise (ValidationError (error_text Demo.runtime []))).
    apply (Hnone (str "no json here } {")); reflexivity.
  - destruct (parse_user_message_never_raises Demo.runtime
                (fun _ => Raise (OtherException (str "ResourceExhausted") (str "429 quota")))
                (str "oi"))
      as (_ & _ & Hraise & Hservice & _).
    apply (Hraise (OtherException (str "ResourceExhausted") (str "429 quota"))).
    apply Hservice. reflexivity.
Defined.

Lemma interact_unexpected_intent_witness :
  interact Demo.runtime (fun _ => Ok Demo.purchase_without_data) 7 (str "comprar")
           Demo.seeded
  = (HTTPException 500 UnexpectedError, Demo.seeded)
  /\ interact Demo.runtime (fun _ => Ok Demo.refund_in_a_sentence) 7 (str "devolver")
              Demo.seeded
     = (HTTPException 500 UnexpectedError, Demo.seeded).
Proof.
  split.
  - apply (interact_unexpected_intent Demo.runtime (fun _ => Ok Demo.purchase_without_data)
             7 (str "comprar") Demo.seeded
             {| type := str "purchase"; data := None |}).
    + reflexivity.
    + left. split; [reflexivity|discriminate].
  - apply (interact_unexpected_intent Demo.runtime (fun _ => Ok Demo.refund_in_a_sentence)
             7 (str "devolver") Demo.seeded
             {| type := str "refund"; data := None |}).
    + reflexivity.
    + right. split; discriminate.
Defined.

(** * Further properties of the workflow *)

(** ** How a request changes the store *)

Section Steps.

Variable rt : Runtime.

(** A call of [interact] leaves the store as it was and does not return, or
    it is a purchase that passed every check and the store is the commit of
    that purchase. *)
Lemma interact_cases service (now : Z) (message : pystr) (st : Store) :
  (snd (interact rt service now message st) = st
   /\ forall body, fst (interact rt service now message st) <> Returns body)
  \/ exists intent p total,
      0 < quantity intent <= Product.stock p
      /\ resolve rt st (strip (product_name intent)) = Some p
      /\ float_mul_int (Product.price p) (quantity intent) = Ok total
      /\ interact rt service now message st
         = (Returns {| message_quantity := quantity intent;
                       message_product := Product.name p;
                       message_total := total;
                       stock_restante := Product.stock p - quantity intent |},
            commit st (Product.with_stock p (Product.stock p - quantity intent))
                   (Transaction.mk (next_rowid (map Transaction.id (transactions st)))
                                   (Product.id p) (quantity intent) total now)).
Proof.
  unfold interact.
  destruct (parse_user_message rt service message) as [intent|e];
    [|left; split; [reflexivity|discriminate]].
  assert (Hskip : forall o : Outcome PurchaseResponse,
             (forall body, o <> Returns body) ->
             (snd (o, st) = st /\ forall body, fst (o, st) <> Returns body)
             \/ exists (intent : PurchaseIntent) (p : Product.t) (total : float),
                 0 < quantity intent <= Product.stock p
                 /\ resolve rt st (strip (product_name intent)) = Some p
                 /\ float_mul_int (Product.price p) (quantity intent) = Ok total
                 /\ (o, st)
                    = (Returns {| message_quantity := quantity intent;
                                  message_product := Product.name p;
                                  message_total := total;
                                  stock_restante := Product.stock p - quantity intent |},
                       commit st (Product.with_stock p (Product.stock p - quantity intent))
                              (Transaction.mk
                                 (next_rowid (map Transaction.id (transactions st)))
                                 (Product.id p) (quantity intent) total now)))
    by (intros o Ho; left; split; [reflexivity|exact Ho]).
  destruct (PyStr.eqb (type intent) (str "purchase")), (data intent) as [[d|d]|];
    try (destruct (PyStr.eqb (type intent) (str "unknown")); apply Hskip; discriminate).
  destruct (purchase rt now d st) as [o st'] eqn:E.
  destruct o as [body|code detail|e].
  - right.
    destruct (purchase_returns rt now d st st' body E) as (p & total & Hq & Hr & Hs & Ht).
    exists d, p, total. repeat split; try assumption.
    rewrite <- E. now apply purchase_succeeds.
  - left. destruct (purchase_no_return rt now d st) as [[body Hb]|Hst];
      rewrite E in *; simpl in *; [discriminate|]. split; [assumption|discriminate].
  - left. destruct (purchase_no_return rt now d st) as [[body Hb]|Hst];
      rewrite E in *; simpl in *; [discriminate|]. split; [assumption|discriminate].
Qed.

(** A property of the store that every commit of a checked purchase keeps is
    kept by every sequence of requests. *)
Lemma run_invariant_priced (P : Store -> Prop) :
  (forall st p q total now,
      P st -> In p (products st) -> 0 < q <= Product.stock p ->
      float_mul_int (Product.price p) q = Ok total ->
      P (commit st (Product.with_stock p (Product.stock p - q))
                (Transaction.mk (next_rowid (map Transaction.id (transactions st)))
                                (Product.id p) q total now))) ->
  forall requests st, P st -> P (run rt requests st).
Proof.
  intros Hstep requests. unfold run.
  induction requests as [|r requests IH]; intros st HP; [assumption|].
  simpl. apply IH. destruct r as [| | | |service now message]; simpl; try assumption.
  destruct (interact_cases service now message st)
    as [[-> _]|(intent & p & total & Hq & Hr & Ht & ->)]; [assumption|].
  simpl. apply Hstep; try assumption.
  exact (resolve_In rt st _ p Hr).
Qed.

Lemma run_invariant (P : Store -> Prop) :
  (forall st p q total now,
      P st -> In p (products st) -> 0 < q <= Product.stock p ->
      P (commit st (Product.with_stock p (Product.stock p - q))
                (Transaction.mk (next_rowid (map Transaction.id (transactions st)))
                                (Product.id p) q total now))) ->
  forall requests st, P st -> P (run rt requests st).
Proof.
  intros Hstep. apply run_invariant_priced.
  intros st p q total now HP Hin Hq _. now apply Hstep.
Qed.

End Steps.

(** ** What a commit keeps *)

Lemma commit_ids (st : Store) (p : Product.t) (t : Transaction.t) :
  map Product.id (products (commit st p t)) = map Product.id (products st).
Proof.
  unfold commit. cbn [products]. rewrite map_map. apply map_ext.
  intros row. now destruct (Product.id row =? Product.id p).
Qed.

Lemma commit_names (st : Store) (p : Product.t) (t : Transaction.t) :
  map Product.name (products (commit st p t)) = map Product.name (products st).
Proof.
  unfold commit. cbn [products]. rewrite map_map. apply map_ext.
  intros row. now destruct (Product.id row =? Product.id p).
Qed.

Lemma commit_prices (st : Store) (p : Product.t) (t : Transaction.t) :
  map Product.price (products (commit st p t)) = map Product.price (products st).
Proof.
  unfold commit. cbn [products]. rewrite map_map. apply map_ext.
  intros row. now destruct (Product.id row =? Product.id p).
Qed.

Lemma next_rowid_above (ids : list Z) : Forall (fun i => i < next_rowid ids) ids.
Proof.
  assert (bound : forall i rest x, In x (i :: rest) -> x <= fold_right Z.max i rest).
  { intros i rest. induction rest as [|j rest IH]; simpl; intros x H.
    - destruct H as [->|[]]. lia.
    - destruct H as [->|[->|H]].
      + specialize (IH x (or_introl eq_refl)). lia.
      + lia.
      + specialize (IH x (or_intror H)). lia. }
  apply Forall_forall. intros x Hx.
  destruct ids as [|i rest]; [destruct Hx|].
  apply bound in Hx. unfold next_rowid. lia.
Qed.

Lemma sorted_snoc (l : list Z) (x : Z) :
  StronglySorted Z.lt l -> Forall (fun i => i < x) l -> StronglySorted Z.lt (l ++ [x]).
Proof.
  induction 1 as [|a l Hs IH Ha]; intros Hx; simpl.
  - repeat constructor.
  - inversion Hx as [|? ? Hax Hlx]; subst. constructor; [now apply IH|].
    apply Forall_app. split; [assumption|]. now constructor.
Qed.

Lemma key_injective (rows : list Product.t) (a b : Product.t) :
  NoDup (map Product.id rows) -> In a rows -> In b rows ->
  Product.id a = Product.id b -> a = b.
Proof.
  induction rows as [|r rows IH]; simpl; intros Hkey Ha Hb E; [contradiction|].
  inversion Hkey as [|? ? Hr Hrows]; subst.
  destruct Ha as [->|Ha], Hb as [->|Hb]; auto.
  - exfalso. apply Hr. rewrite E. now apply in_map.
  - exfalso. apply Hr. rewrite <- E. now apply in_map.
Qed.

Lemma sumZ_app (a b : list Z) : sumZ (a ++ b) = sumZ a + sumZ b.
Proof. induction a as [|x a IH]; simpl; [reflexivity|]. rewrite IH. lia. Qed.

(** ** Invariants of the tables *)

(** X1. The keys hold through every sequence of requests: product ids stay
    pairwise distinct, product names stay pairwise distinct, and the ids of
    the transactions keep growing along the table, so no id is used twice. *)
Theorem run_keeps_keys (rt : Runtime) (requests : list Request) (st : Store) :
  primary_key st -> unique_names st -> transaction_ids_increase st ->
  primary_key (run rt requests st)
  /\ unique_names (run rt requests st)
  /\ transaction_ids_increase (run rt requests st)
  /\ NoDup (map Transaction.id (transactions (run rt requests st))).
Proof.
  intros Hk Hn Ht.
  assert (H : primary_key (run rt requests st)
              /\ unique_names (run rt requests st)
              /\ transaction_ids_increase (run rt requests st)).
  { apply (run_invariant rt
             (fun s => primary_key s /\ unique_names s /\ transaction_ids_increase s));
      [|auto].
    clear. intros st p q total now (Hk & Hn & Ht) _ _.
    unfold primary_key, unique_names, transaction_ids_increase in *.
    rewrite commit_ids, commit_names. repeat split; try assumption.
    unfold commit. cbn [transactions]. rewrite map_app. cbn [map Transaction.id].
    apply sorted_snoc; [assumption|apply next_rowid_above]. }
  destruct H as (H1 & H2 & H3). repeat split; try assumption.
  unfold transaction_ids_increase in H3. clear - H3.
  induction H3 as [|a l Hs IH Ha]; constructor; [|assumption].
  intros Hin. rewrite Forall_forall in Ha. specialize (Ha a Hin). lia.
Qed.

(** X2. No request creates, deletes, renames or reprices a product: after any
    sequence of requests the product table lists the same ids, names and
    prices, in the same order. *)
Theorem run_keeps_catalogue (rt : Runtime) (requests : list Request) (st : Store) :
  map Product.id (products (run rt requests st)) = map Product.id (products st)
  /\ map Product.name (products (run rt requests st)) = map Product.name (products st)
  /\ map Product.price (products (run rt requests st)) = map Product.price (products st).
Proof.
  apply (run_invariant rt
           (fun s => map Product.id (products s) = map Product.id (products st)
                     /\ map Product.name (products s) = map Product.name (products st)
                     /\ map Product.price (products s) = map Product.price (products st)));
    [|auto].
  intros s p q total now (Hi & Hn & Hp) _ _.
  now rewrite commit_ids, commit_names, commit_prices.
Qed.

(** X3. The transaction table is append-only: after any sequence of requests
    it is the table before them followed by new rows, at most one for each
    request; no row is changed or removed. *)
Theorem run_appends_transactions (rt : Runtime) (requests : list Request) (st : Store) :
  exists new,
    transactions (run rt requests st) = transactions st ++ new
    /\ (List.length new <= List.length requests)%nat.
Proof.
  unfold run. revert st.
  induction requests as [|r requests IH]; intros st.
  - exists []. simpl. rewrite app_nil_r. auto.
  - simpl. destruct (IH (serve rt st r)) as (new & Hnew & Hlen).
    destruct r; simpl in *;
      try (exists new; split; [assumption|lia]).
    destruct (interact_cases rt service now message st)
      as [[Hst _]|(intent & p & total & _ & _ & _ & E)].
    + rewrite Hst in *. exists new. split; [assumption|lia].
    + rewrite E in *. cbn [snd commit transactions] in Hnew.
      rewrite <- app_assoc in Hnew. eexists. split; [exact Hnew|]. simpl. lia.
Qed.

(** X4. Every transaction refers to a stored product, and keeps doing so
    through every sequence of requests. *)
Theorem run_keeps_foreign_keys (rt : Runtime) (requests : list Request) (st : Store) :
  foreign_keys st -> foreign_keys (run rt requests st).
Proof.
  apply (run_invariant rt foreign_keys).
  intros s p q total now H Hin _. unfold foreign_keys in *.
  rewrite commit_ids. unfold commit. cbn [transactions].
  apply Forall_app. split; [assumption|].
  constructor; [|constructor]. cbn [Transaction.product_id].
  now apply in_map.
Qed.

(** X5. Every transaction is of a positive quantity, and keeps being so
    through every sequence of requests, though the table model does not
    validate the field. *)
Theorem run_keeps_quantities_positive (rt : Runtime) (requests : list Request)
        (st : Store) :
  quantities_positive st -> quantities_positive (run rt requests st).
Proof.
  apply (run_invariant rt quantities_positive).
  intros s p q total now H _ Hq. unfold quantities_positive, commit in *.
  cbn [transactions]. apply Forall_app. split; [assumption|].
  constructor; [|constructor]. cbn [Transaction.quantity]. lia.
Qed.

Lemma commit_conserves (st : Store) (p : Product.t) (q : Z) (t : Transaction.t) (pid : Z) :
  primary_key st -> In p (products st) ->
  Transaction.product_id t = Product.id p -> Transaction.quantity t = q ->
  stock_of pid (commit st (Product.with_stock p (Product.stock p - q)) t)
  + sold pid (commit st (Product.with_stock p (Product.stock p - q)) t)
  = stock_of pid st + sold pid st.
Proof.
  intros Hkey Hin Hid Hq.
  destruct (in_split p (products st) Hin) as (before & after & Hrows).
  unfold stock_of, sold, commit.
  cbn [products transactions Product.id Product.stock Product.with_stock].
  rewrite (update_one_row (products st) before after p _ Hkey Hrows), Hrows.
  rewrite !filter_app, !map_app, !sumZ_app.
  cbn [filter Product.id Product.with_stock]. rewrite Hid.
  destruct (Product.id p =? pid); cbn [map sumZ fold_right Product.stock Product.with_stock];
    rewrite ?sumZ_app; cbn [map sumZ fold_right]; unfold sumZ; lia.
Qed.

(** X6. Stock is conserved: where the id is the key of the product table,
    after any sequence of requests the stock of each product plus the units
    its transactions record is what it was before them; every unit that
    leaves the stock is in a transaction. *)
Theorem run_conserves_stock (rt : Runtime) (requests : list Request) (st : Store)
        (pid : Z) :
  primary_key st ->
  stock_of pid (run rt requests st) + sold pid (run rt requests st)
  = stock_of pid st + sold pid st.
Proof.
  intros Hkey.
  apply (run_invariant rt
           (fun s => primary_key s
                     /\ stock_of pid s + sold pid s = stock_of pid st + sold pid st));
    [|auto].
  clear Hkey. intros s p q total now (Hk & Hc) Hin _. split.
  - unfold primary_key in *. now rewrite commit_ids.
  - rewrite <- Hc. now apply commit_conserves.
Qed.

Lemma Forall2_map_step (R : Product.t -> Product.t -> Prop) (f : Product.t -> Product.t)
      (l0 l : list Product.t) :
  Forall2 R l0 l ->
  (forall r0 r, R r0 r -> In r l -> R r0 (f r)) ->
  Forall2 R l0 (map f l).
Proof.
  induction 1 as [|r0 r l0 l Hr Hl IH]; intros Hf; simpl; constructor.
  - apply Hf; [assumption|now left].
  - apply IH. intros a b Hab Hb. apply Hf; [assumption|now right].
Qed.

(** X7. No request restocks: where the id is the key of the product table,
    after any sequence of requests each row is the row it was, with the same
    id, name and price and a stock that is not larger. *)
Theorem run_never_restocks (rt : Runtime) (requests : list Request) (st : Store) :
  primary_key st ->
  Forall2 sold_from (products st) (products (run rt requests st)).
Proof.
  intros Hkey.
  apply (run_invariant rt
           (fun s => primary_key s /\ Forall2 sold_from (products st) (products s))).
  - clear Hkey. intros s p q total now (Hk & HF) Hin Hq. split.
    + unfold primary_key in *. now rewrite commit_ids.
    + unfold commit. cbn [products]. apply Forall2_map_step; [assumption|].
      intros r0 r (Hi & Hn & Hp & Hs) Hr.
      cbn [Product.id Product.stock Product.with_stock].
      destruct (Z.eqb_spec (Product.id r) (Product.id p)) as [E|_];
        [|repeat split; assumption].
      assert (r = p) by (apply (key_injective (products s)); assumption). subst r.
      repeat split; cbn [Product.id Product.name Product.price Product.stock
                           Product.with_stock]; try assumption. lia.
  - split; [assumption|].
    clear. induction (products st) as [|r l IH]; constructor; [|assumption].
    repeat split; lia.
Qed.

(** ** Startup *)

(** X8. [startup] seeds an empty product table and nothing else: it leaves a
    table with rows as it is, never leaves the table empty, never touches
    the transactions, keeps the keys, and running it again changes nothing. *)
Theorem startup_idempotent (st : Store) :
  startup (startup st) = startup st
  /\ products (startup st) <> []
  /\ transactions (startup st) = transactions st
  /\ (products st <> [] -> startup st = st)
  /\ (primary_key st -> primary_key (startup st))
  /\ (unique_names st -> unique_names (startup st)).
Proof.
  unfold startup, primary_key, unique_names.
  destruct (products st) as [|row rows] eqn:E; cbn [products transactions].
  - repeat split; try discriminate; try tauto.
    + intros _. simpl. repeat constructor; simpl; intuition discriminate.
    + intros _. simpl. repeat constructor; simpl; intuition discriminate.
  - rewrite E. repeat split; try discriminate; tauto.
Qed.

(** ** The endpoint *)

(** X9. Whatever goes wrong in the parser reaches the client as a 400 that
    carries the reason: when the body of the [try] raises, [interact] raises
    the 400 error with the reason built for that exception, and the store is
    as it was. *)
Theorem interact_reports_parser_failure (rt : Runtime) service (now : Z)
        (message : pystr) (st : Store) (e : exception) :
  try_body rt service message = Raise e ->
  interact rt service now message st
  = (HTTPException 400 (IntentNotUnderstood (reason_for e)), st).
Proof.
  intros H. unfold interact. rewrite parse_user_message_eq, H. reflexivity.
Qed.

(** X10. A call of [interact] is all or nothing: when it returns, the store
    has one transaction more, of a stored product, with the quantity and the
    total of the body and the time of the call, and the product table is the
    one before the call with the stock of that product set to the remaining
    stock of the body; when it ends in any other way, the store is as it
    was. *)
Theorem interact_all_or_nothing (rt : Runtime) service (now : Z) (message : pystr)
        (st : Store) :
  match fst (interact rt service now message st) with
  | Returns body =>
      exists t,
        transactions (snd (interact rt service now message st)) = transactions st ++ [t]
        /\ Transaction.quantity t = message_quantity body
        /\ Transaction.total_price t = message_total body
        /\ Transaction.timestamp t = now
        /\ In (Transaction.product_id t) (map Product.id (products st))
        /\ products (snd (interact rt service now message st))
           = map (fun row => if Product.id row =? Transaction.product_id t
                             then Product.with_stock row (stock_restante body)
                             else row) (products st)
  | _ => snd (interact rt service now message st) = st
  end.
Proof.
  destruct (interact_cases rt service now message st)
    as [[Hst Hno]|(intent & p & total & Hq & Hr & Ht & E)].
  - destruct (fst (interact rt service now message st));
      [now destruct (Hno body)|assumption..].
  - rewrite E. cbn [fst snd]. eexists. unfold commit. cbn [transactions products].
    split; [reflexivity|].
    cbn [Transaction.quantity Transaction.total_price Transaction.timestamp
         Transaction.product_id message_quantity message_total stock_restante
         Product.id Product.stock Product.with_stock].
    repeat split. apply in_map. exact (resolve_In rt st _ p Hr).
Qed.

Lemma interact_reports_parser_failure_witness :
  interact Demo.runtime
           (fun _ => Raise (OtherException (str "ServiceUnavailable") (str "503")))
           7 (str "3 colas") Demo.seeded
  = (HTTPException 400
       (IntentNotUnderstood (str "Erro com Gemini: ServiceUnavailable: 503")),
     Demo.seeded).
Proof.
  apply (interact_reports_parser_failure Demo.runtime
           (fun _ => Raise (OtherException (str "ServiceUnavailable") (str "503")))
           7 (str "3 colas") Demo.seeded
           (OtherException (str "ServiceUnavailable") (str "503"))).
  reflexivity.
Defined.

(** ** The requested name *)

Lemma lstrip_blank (b s : pystr) : blank b = true -> lstrip (b ++ s) = lstrip s.
Proof.
  induction b as [|c b IH]; simpl; intros H; [reflexivity|].
  apply andb_true_iff in H as [Hc Hb]. rewrite Hc. now apply IH.
Qed.

Lemma blank_rev (b : pystr) : blank b = true -> blank (rev b) = true.
Proof.
  unfold blank. rewrite !forallb_forall. intros H c Hc. apply H. now apply in_rev.
Qed.

Lemma rstrip_blank (s b : pystr) : blank b = true -> rstrip (s ++ b) = rstrip s.
Proof.
  intros H. unfold rstrip. rewrite rev_app_distr.
  now rewrite lstrip_blank by now apply blank_rev.
Qed.

Lemma strip_blank (b1 s b2 : pystr) :
  blank b1 = true -> blank b2 = true -> strip (b1 ++ s ++ b2) = strip s.
Proof.
  intros H1 H2. unfold strip. rewrite lstrip_blank by assumption.
  induction s as [|c s IH]; simpl.
  - rewrite <- (app_nil_r b2), lstrip_blank by assumption. reflexivity.
  - destruct (isspace c); [assumption|].
    change (c :: s ++ b2) with ((c :: s) ++ b2). now apply rstrip_blank.
Qed.

(** X12. White space around the requested name does not count, whatever its
    kind and length: a purchase by a name and a purchase by that name between
    two runs of white space end alike, in the same outcome and store. *)
Theorem purchase_ignores_surrounding_space (rt : Runtime) (now : Z) (q : Z)
        (b1 name b2 : pystr) (st : Store) :
  blank b1 = true -> blank b2 = true ->
  purchase rt now {| product_name := b1 ++ name ++ b2; quantity := q |} st
  = purchase rt now {| product_name := name; quantity := q |} st.
Proof.
  intros H1 H2. unfold purchase. cbn [product_name quantity].
  now rewrite strip_blank.
Qed.

Lemma purchase_ignores_surrounding_space_witness :
  purchase Demo.runtime 7
           {| product_name := [9; 32]%N ++ str "pepsi" ++ [160; 10]%N; quantity := 2 |}
           Demo.seeded
  = purchase Demo.runtime 7 {| product_name := str "pepsi"; quantity := 2 |} Demo.seeded.
Proof.
  apply (purchase_ignores_surrounding_space Demo.runtime 7 2 [9; 32]%N (str "pepsi")
                                            [160; 10]%N Demo.seeded);
    reflexivity.
Defined.

Lemma startswith_spec (hay needle : pystr) :
  startswith hay needle = true <-> exists post, hay = needle ++ post.
Proof.
  revert hay. induction needle as [|c needle IH]; intros hay; simpl.
  - split; [intros _; now exists hay|now destruct hay].
  - destruct hay as [|d hay].
    + split; [discriminate|]. intros [post H]. discriminate.
    + split.
      * intros H. apply andb_true_iff in H as [Hc H]. apply N.eqb_eq in Hc.
        apply IH in H as [post ->]. exists post. now subst.
      * intros [post H]. injection H as -> ->. simpl. rewrite N.eqb_refl. simpl.
        apply IH. now exists post.
Qed.

Lemma contains_spec (hay needle : pystr) :
  contains hay needle = true <-> exists pre post, hay = pre ++ needle ++ post.
Proof.
  induction hay as [|d hay IH].
  - cbn [contains]. rewrite orb_false_r, startswith_spec. split.
    + intros [post H]. now exists [], post.
    + intros (pre & post & H). destruct pre; [now exists post|discriminate].
  - cbn [contains]. rewrite orb_true_iff, startswith_spec, IH. split.
    + intros [[post H]|(pre & post & H)].
      * now exists [], post.
      * exists (d :: pre), post. simpl. now rewrite H.
    + intros (pre & post & H). destruct pre as [|c pre].
      * left. now exists post.
      * right. injection H as -> H. now exists pre, post.
Qed.

(** X13. The test of the loop over the names is the substring test: it
    passes on a stored name exactly when the lower-case form of the stored
    name is some text, then the lower-case form of the requested name, then
    some text; so an empty lower-case request passes on every name. *)
Theorem name_contains_spec (rt : Runtime) (name p_name : pystr) :
  (name_contains rt name p_name = true
   <-> exists pre post, py_lower rt p_name = pre ++ py_lower rt name ++ post)
  /\ (py_lower rt name = [] -> name_contains rt name p_name = true).
Proof.
  unfold name_contains. split; [apply contains_spec|].
  intros ->. apply contains_spec. now exists [], (py_lower rt p_name).
Qed.

(** X14. A requested name that is blank resolves to a product: when no
    stored name is empty, and the lower-case form of the empty string is
    empty, a name of white space only resolves to the product named by the
    first name the store lists. *)
Theorem blank_name_resolves_first (rt : Runtime) (st : Store) (raw first : pystr)
        (rest : list pystr) :
  blank raw = true ->
  py_lower rt [] = [] ->
  (forall p, In p (products st) -> Product.name p <> []) ->
  scan_names rt (products st) = first :: rest ->
  strip raw = [] /\ resolve rt st (strip raw) = product_named st first.
Proof.
  intros Hb Hl Hne Hscan.
  assert (Hs : strip raw = []).
  { rewrite <- (app_nil_r raw). change (raw ++ []) with (raw ++ [] ++ []).
    now rewrite strip_blank. }
  split; [assumption|]. rewrite Hs. unfold resolve.
  assert (He : exact_match st [] = None).
  { unfold exact_match.
    destruct (find _ _) as [p|] eqn:E; [|reflexivity].
    apply find_some in E as [Hin H]. exfalso. apply (Hne p Hin).
    unfold Sqlite.ilike in H. cbn in H.
    destruct (Product.name p); [reflexivity|discriminate]. }
  rewrite He, Hscan. cbn [similarity]. rewrite Hl.
  now destruct (py_lower rt first).
Qed.

Lemma blank_name_resolves_first_witness :
  strip (str "   ") = []
  /\ resolve Demo.runtime Demo.seeded (strip (str "   "))
     = product_named Demo.seeded (str "Coca-Cola").
Proof.
  apply (blank_name_resolves_first Demo.runtime Demo.seeded (str "   ")
           (str "Coca-Cola") [str "Pepsi"; str "Guaran" ++ [a_acute]]).
  - reflexivity.
  - reflexivity.
  - intros p [<-|[<-|[<-|[]]]]; discriminate.
  - reflexivity.
Defined.

(** A blank name buys the first product listed. *)
Example blank_purchase_example :
  fst (purchase Demo.runtime 7 {| product_name := str "  "; quantity := 1 |} Demo.seeded)
  = Returns {| message_quantity := 1; message_product := str "Coca-Cola";
               message_total := 2.5%float; stock_restante := 99 |}.
Proof. reflexivity. Qed.

(** ** Bounds of a purchase *)

(** X15. The whole stock can be bought and nothing more: for a resolved
    product with a positive stock within the range of an SQLite integer, a
    purchase of exactly the stock returns and leaves the product with stock
    0, and a purchase of one more raises the 400 error of the stock. *)
Theorem purchase_whole_stock (rt : Runtime) (now : Z) (raw : pystr) (st : Store)
        (p : Product.t) :
  resolve rt st (strip raw) = Some p ->
  0 < Product.stock p < 2 ^ 63 ->
  (exists body st',
      purchase rt now {| product_name := raw; quantity := Product.stock p |} st
      = (Returns body, st')
      /\ stock_restante body = 0
      /\ In (Product.with_stock p 0) (products st'))
  /\ purchase rt now {| product_name := raw; quantity := Product.stock p + 1 |} st
     = (HTTPException 400 (InsufficientStock (Product.stock p)), st).
Proof.
  intros Hr Hs. split.
  - destruct (float_of_int_in_range (Product.stock p)) as [y Hy]; [lia|].
    eexists. eexists. split; [|split].
    + apply (purchase_succeeds rt now {| product_name := raw; quantity := Product.stock p |}
                               st p (PrimFloat.mul (Product.price p) y));
        cbn [product_name quantity]; try assumption; try lia.
      unfold float_mul_int. rewrite Hy. reflexivity.
    + cbn [stock_restante quantity]. lia.
    + unfold commit. cbn [products quantity Product.id Product.stock Product.with_stock].
      replace (Product.stock p - Product.stock p) with 0 by lia.
      apply in_map_iff. exists p. rewrite Z.eqb_refl. split; [reflexivity|].
      exact (resolve_In rt st _ p Hr).
  - unfold purchase. cbn [product_name quantity].
    destruct (Z.leb_spec (Product.stock p + 1) 0); [lia|].
    rewrite Hr.
    destruct (Z.ltb_spec (Product.stock p) (Product.stock p + 1)); [reflexivity|lia].
Qed.

Lemma purchase_whole_stock_witness :
  (exists body st',
      purchase Demo.runtime 7
               {| product_name := str "pepsi"; quantity := Product.stock Demo.pepsi |}
               Demo.seeded
      = (Returns body, st')
      /\ stock_restante body = 0
      /\ In (Product.with_stock Demo.pepsi 0) (products st'))
  /\ purchase Demo.runtime 7
              {| product_name := str "pepsi"; quantity := Product.stock Demo.pepsi + 1 |}
              Demo.seeded
     = (HTTPException 400 (InsufficientStock (Product.stock Demo.pepsi)), Demo.seeded).
Proof.
  apply (purchase_whole_stock Demo.runtime 7 (str "pepsi") Demo.seeded Demo.pepsi).
  - reflexivity.
  - simpl. lia.
Defined.

(** X17. The body of a purchase reports what was committed: the store it
    leaves has a row with the name and the remaining stock of the body, and
    its newest transaction is of that row, with the quantity and the total of
    the body. *)
Theorem purchase_reports_the_commit (rt : Runtime) (now : Z) (intent : PurchaseIntent)
        (st st' : Store) (body : PurchaseResponse) :
  purchase rt now intent st = (Returns body, st') ->
  exists row t,
    In row (products st')
    /\ Product.name row = message_product body
    /\ Product.stock row = stock_restante body
    /\ transactions st' = transactions st ++ [t]
    /\ Transaction.product_id t = Product.id row
    /\ Transaction.quantity t = message_quantity body
    /\ Transaction.total_price t = message_total body
    /\ message_quantity body = quantity intent.
Proof.
  intros H.
  destruct (purchase_returns rt now intent st st' body H) as (p & total & Hq & Hr & Hs & Ht).
  rewrite (purchase_succeeds rt now intent st p total Hq Hr Hs Ht) in H.
  injection H as <- <-.
  exists (Product.with_stock p (Product.stock p - quantity intent)). eexists.
  unfold commit. cbn [products transactions].
  split; [|repeat split].
  apply in_map_iff. exists p.
  cbn [Product.id Product.stock Product.with_stock]. rewrite Z.eqb_refl.
  split; [reflexivity|]. exact (resolve_In rt st _ p Hr).
Qed.

Lemma purchase_reports_the_commit_witness :
  exists row t,
    In row (products Demo.after_order)
    /\ Product.name row = message_product Demo.receipt
    /\ Product.stock row = stock_restante Demo.receipt
    /\ transactions Demo.after_order = transactions Demo.seeded ++ [t]
    /\ Transaction.product_id t = Product.id row
    /\ Transaction.quantity t = message_quantity Demo.receipt
    /\ Transaction.total_price t = message_total Demo.receipt
    /\ message_quantity Demo.receipt = quantity Demo.order.
Proof.
  apply (purchase_reports_the_commit Demo.runtime 7 Demo.order Demo.seeded
                                     Demo.after_order Demo.receipt).
  reflexivity.
Defined.

(** ** The answer of the language service *)

(** X16. What the service writes around the JSON does not count: an answer
    with text before the first opening brace and after the last closing
    brace is parsed as the part between the two braces alone. *)
Theorem parse_ignores_surrounding_text (rt : Runtime) (message pre mid post : pystr) :
  ~ In Re.lbrace pre -> ~ In Re.rbrace post ->
  parse_user_message rt
    (fun _ => Ok (pre ++ Re.lbrace :: mid ++ Re.rbrace :: post)) message
  = parse_user_message rt (fun _ => Ok (Re.lbrace :: mid ++ [Re.rbrace])) message.
Proof.
  intros Hpre Hpost. unfold parse_user_message, try_body, extract_json. cbn [bind].
  rewrite (search_first_to_last_brace pre mid post Hpre Hpost).
  pose proof (search_first_to_last_brace [] mid [] (fun H => H) (fun H => H)) as E.
  cbn [app] in E. rewrite E. reflexivity.
Qed.

Lemma parse_ignores_surrounding_text_witness :
  parse_user_message Demo.runtime (fun _ => Ok Demo.refund_in_a_sentence) (str "oi")
  = parse_user_message Demo.runtime (fun _ => Ok Demo.refund) (str "oi").
Proof.
  apply (parse_ignores_surrounding_text Demo.runtime (str "oi") (str "Sure: ")
           (removelast (tl Demo.refund)) (str " done")).
  - simpl. intuition discriminate.
  - simpl. intuition discriminate.
Defined.

(** ** Resolution and the tables over time *)

Lemma find_by_name_stable (test : pystr -> bool) (l l' : list Product.t) :
  map Product.id l' = map Product.id l ->
  map Product.name l' = map Product.name l ->
  option_map Product.id (find (fun p => test (Product.name p)) l')
  = option_map Product.id (find (fun p => test (Product.name p)) l)
  /\ option_map Product.name (find (fun p => test (Product.name p)) l')
     = option_map Product.name (find (fun p => test (Product.name p)) l).
Proof.
  revert l'. induction l as [|r l IH]; intros [|r' l'] Hi Hn; try discriminate;
    [now split|].
  simpl in Hi, Hn. injection Hi as Hi Hil. injection Hn as Hn Hnl.
  cbn [find]. rewrite Hn. destruct (test (Product.name r)).
  - simpl. now rewrite Hi, Hn.
  - now apply IH.
Qed.

(** X18. Selling does not change what a name resolves to: after any sequence
    of requests, where the store still lists the names in the same order, a
    name resolves to a product of the same id and name as before, or to none
    as before. *)
Theorem run_keeps_resolution (rt : Runtime) (requests : list Request) (st : Store)
        (name : pystr) :
  scan_names rt (products (run rt requests st)) = scan_names rt (products st) ->
  option_map Product.id (resolve rt (run rt requests st) name)
  = option_map Product.id (resolve rt st name)
  /\ option_map Product.name (resolve rt (run rt requests st) name)
     = option_map Product.name (resolve rt st name).
Proof.
  intros Hscan.
  destruct (run_keeps_catalogue rt requests st) as (Hi & Hn & _).
  pose proof (find_by_name_stable (fun n => Sqlite.ilike n name) _ _ Hi Hn) as [Ei En].
  assert (Hnamed : forall n,
             option_map Product.id (product_named (run rt requests st) n)
             = option_map Product.id (product_named st n)
             /\ option_map Product.name (product_named (run rt requests st) n)
                = option_map Product.name (product_named st n)).
  { intros n. exact (find_by_name_stable (fun m => PyStr.eqb m n) _ _ Hi Hn). }
  unfold resolve, exact_match in *.
  destruct (find (fun p => Sqlite.ilike (Product.name p) name) (products (run rt requests st)))
    as [a|];
    destruct (find (fun p => Sqlite.ilike (Product.name p) name) (products st)) as [b|];
    try discriminate; [now split|].
  rewrite Hscan, !similarity_find.
  destruct (find (name_contains rt name) (scan_names rt (products st))) as [n|];
    [apply Hnamed|now split].
Qed.

Lemma max_attained (i : Z) (rest : list Z) : In (fold_right Z.max i rest) (i :: rest).
Proof.
  induction rest as [|j rest IH]; simpl; [now left|].
  destruct (Z.max_spec j (fold_right Z.max i rest)) as [[_ ->]|[_ ->]].
  - destruct IH as [<-|H]; [now left|right; now right].
  - right. now left.
Qed.

Lemma next_rowid_consecutive (n : nat) :
  next_rowid (map Z.of_nat (seq 1 n)) = Z.of_nat n + 1.
Proof.
  destruct n as [|n]; [reflexivity|].
  pose proof (next_rowid_above (map Z.of_nat (seq 1 (S n)))) as Habove.
  rewrite Forall_forall in Habove.
  assert (Hlast : In (Z.of_nat (S n)) (map Z.of_nat (seq 1 (S n)))).
  { apply in_map, in_seq. lia. }
  apply Habove in Hlast.
  assert (Hmax : exists m, In m (map Z.of_nat (seq 1 (S n)))
                           /\ next_rowid (map Z.of_nat (seq 1 (S n))) = 1 + m).
  { cbn [seq map next_rowid]. eexists. split; [|reflexivity]. apply max_attained. }
  destruct Hmax as (m & Hm & E).
  apply in_map_iff in Hm as (k & <- & Hk). apply in_seq in Hk. lia.
Qed.

(** X19. From an empty transaction table the ids are 1, 2, 3 and so on with
    no gap: after any sequence of requests the ids of the transactions are
    the numbers from 1 to the number of transactions, in that order. *)
Theorem run_numbers_transactions (rt : Runtime) (requests : list Request) (st : Store) :
  transactions st = [] ->
  map Transaction.id (transactions (run rt requests st))
  = map Z.of_nat (seq 1 (List.length (transactions (run rt requests st)))).
Proof.
  intros Hempty.
  apply (run_invariant rt
           (fun s => map Transaction.id (transactions s)
                     = map Z.of_nat (seq 1 (List.length (transactions s))))).
  - clear. intros s p q total now H _ _. unfold commit. cbn [transactions].
    rewrite map_app, length_app, Nat.add_comm. cbn [List.length Nat.add map Transaction.id].
    rewrite seq_S, map_app, H. cbn [map]. rewrite next_rowid_consecutive.
    f_equal. f_equal. lia.
  - now rewrite Hempty.
Qed.

(** X20. A stored name asked for as it is stored is never unknown: where the
    name has no white space around it, the exact match finds a product whose
    name the request matches as a pattern, whatever wildcards the name holds,
    so a purchase of a positive quantity by that name does not raise the 404
    error. *)
Theorem stored_name_is_found (rt : Runtime) (now : Z) (q : Z) (st : Store)
        (p : Product.t) :
  In p (products st) ->
  strip (Product.name p) = Product.name p ->
  (exists found,
      exact_match st (strip (Product.name p)) = Some found
      /\ resolve rt st (strip (Product.name p)) = Some found
      /\ Sqlite.ilike (Product.name found) (Product.name p) = true)
  /\ fst (purchase rt now {| product_name := Product.name p; quantity := q |} st)
     <> HTTPException 404 (ProductNotFound (strip (Product.name p))).
Proof.
  intros Hin Hs.
  assert (Hfound : exists found,
             exact_match st (strip (Product.name p)) = Some found
             /\ Sqlite.ilike (Product.name found) (Product.name p) = true).
  { rewrite Hs. unfold exact_match.
    destruct (find _ _) as [found|] eqn:E.
    - exists found. split; [reflexivity|]. now apply find_some in E.
    - apply (find_none _ _ E) in Hin. rewrite ilike_same_case in Hin by reflexivity.
      discriminate. }
  destruct Hfound as (found & He & Hl).
  assert (Hr : resolve rt st (strip (Product.name p)) = Some found)
    by (unfold resolve; now rewrite He).
  split; [now exists found|].
  unfold purchase. cbn [product_name quantity]. rewrite Hr.
  destruct (q <=? 0); [discriminate|].
  destruct (Product.stock found <? q); [discriminate|].
  destruct (float_mul_int _ _); discriminate.
Qed.

(** ** The further properties on the seeded machine *)

Lemma run_keeps_keys_witness :
  primary_key (run Demo.runtime Demo.morning Demo.seeded)
  /\ unique_names (run Demo.runtime Demo.morning Demo.seeded)
  /\ transaction_ids_increase (run Demo.runtime Demo.morning Demo.seeded)
  /\ NoDup (map Transaction.id (transactions (run Demo.runtime Demo.morning Demo.seeded))).
Proof.
  apply (run_keeps_keys Demo.runtime Demo.morning Demo.seeded).
  - unfold primary_key. simpl. repeat constructor; simpl; intuition discriminate.
  - unfold unique_names. simpl. repeat constructor; simpl; intuition discriminate.
  - unfold transaction_ids_increase. simpl. constructor.
Defined.

Lemma run_keeps_foreign_keys_witness :
  foreign_keys (run Demo.runtime Demo.morning Demo.after_order).
Proof.
  apply (run_keeps_foreign_keys Demo.runtime Demo.morning Demo.after_order).
  unfold foreign_keys. simpl. repeat constructor.
Defined.

Lemma run_keeps_quantities_positive_witness :
  quantities_positive (run Demo.runtime Demo.morning Demo.after_order).
Proof.
  apply (run_keeps_quantities_positive Demo.runtime Demo.morning Demo.after_order).
  unfold quantities_positive. simpl. repeat constructor.
Defined.

Lemma run_conserves_stock_witness :
  stock_of 1 (run Demo.runtime Demo.morning Demo.seeded)
  + sold 1 (run Demo.runtime Demo.morning Demo.seeded)
  = stock_of 1 Demo.seeded + sold 1 Demo.seeded.
Proof.
  apply (run_conserves_stock Demo.runtime Demo.morning Demo.seeded 1).
  unfold primary_key. simpl. repeat constructor; simpl; intuition discriminate.
Defined.

(** In the morning six colas leave the stock and enter the transactions. *)
Example morning_balance :
  stock_of 1 Demo.seeded = 100 /\ sold 1 Demo.seeded = 0
  /\ stock_of 1 (run Demo.runtime Demo.morning Demo.seeded) = 94
  /\ sold 1 (run Demo.runtime Demo.morning Demo.seeded) = 6.
Proof. repeat split; vm_compute; reflexivity. Qed.

Lemma run_never_restocks_witness :
  Forall2 sold_from (products Demo.seeded)
          (products (run Demo.runtime Demo.morning Demo.seeded)).
Proof.
  apply (run_never_restocks Demo.runtime Demo.morning Demo.seeded).
  unfold primary_key. simpl. repeat constructor; simpl; intuition discriminate.
Defined.

Lemma run_keeps_resolution_witness :
  option_map Product.id
             (resolve Demo.runtime (run Demo.runtime Demo.morning Demo.seeded) (str "cola"))
  = option_map Product.id (resolve Demo.runtime Demo.seeded (str "cola"))
  /\ option_map Product.name
                (resolve Demo.runtime (run Demo.runtime Demo.morning Demo.seeded) (str "cola"))
     = option_map Product.name (resolve Demo.runtime Demo.seeded (str "cola")).
Proof.
  apply (run_keeps_resolution Demo.runtime Demo.morning Demo.seeded (str "cola")).
  vm_compute. reflexivity.
Defined.

Lemma run_numbers_transactions_witness :
  map Transaction.id (transactions (run Demo.runtime Demo.morning Demo.seeded))
  = map Z.of_nat
        (seq 1 (List.length (transactions (run Demo.runtime Demo.morning Demo.seeded)))).
Proof.
  apply (run_numbers_transactions Demo.runtime Demo.morning Demo.seeded).
  reflexivity.
Defined.

Lemma stored_name_is_found_witness :
  (exists found,
      exact_match Demo.discounts (strip (str "100%")) = Some found
      /\ resolve Demo.runtime Demo.discounts (strip (str "100%")) = Some found
      /\ Sqlite.ilike (Product.name found) (str "100%") = true)
  /\ fst (purchase Demo.runtime 7 {| product_name := str "100%"; quantity := 1 |}
                   Demo.discounts)
     <> HTTPException 404 (ProductNotFound (strip (str "100%"))).
Proof.
  apply (stored_name_is_found Demo.runtime 7 1 Demo.discounts
                              (Product.mk 2 (str "100%") 4%float 10)).
  - simpl. tauto.
  - reflexivity.
Defined.

(** X21. The totals stay right: as no request changes a price, after any
    sequence of requests every transaction, old or new, still records the
    price of a stored product of its id times its quantity. *)
Theorem run_keeps_totals_priced (rt : Runtime) (requests : list Request) (st : Store) :
  totals_priced st -> totals_priced (run rt requests st).
Proof.
  apply (run_invariant_priced rt totals_priced).
  intros s p q total now H Hin _ Htotal. unfold totals_priced in *.
  set (f := fun row => if Product.id row =? Product.id p
                       then Product.with_stock row (Product.stock p - q) else row).
  assert (Hf : forall r, In r (products s) ->
                 In (f r) (map f (products s))
                 /\ Product.id (f r) = Product.id r
                 /\ Product.price (f r) = Product.price r).
  { intros r Hr. split; [now apply in_map|].
    unfold f. now destruct (Product.id r =? Product.id p). }
  unfold commit. cbn [transactions products Product.id Product.stock Product.with_stock].
  fold f. apply Forall_app. split.
  - rewrite Forall_forall in *. intros t Ht.
    destruct (H t Ht) as (r & Hr & Hid & Htot).
    destruct (Hf r Hr) as (Hin' & Hid' & Hp').
    exists (f r). rewrite Hid', Hp'. auto.
  - constructor; [|constructor].
    destruct (Hf p Hin) as (Hin' & Hid' & Hp').
    exists (f p). cbn [Transaction.product_id Transaction.quantity Transaction.total_price].
    rewrite Hid', Hp'. auto.
Qed.

Lemma run_keeps_totals_priced_witness :
  totals_priced (run Demo.runtime Demo.morning Demo.after_order).
Proof.
  apply (run_keeps_totals_priced Demo.runtime Demo.morning Demo.after_order).
  unfold totals_priced. simpl. constructor; [|constructor].
  exists (Product.with_stock Demo.coca_cola 97). simpl.
  split; [now left|]. split; reflexivity.
Defined.
